(** * Host-side register access and DMA control of the Coyote Jigsaw examples

    A shallow embedding of the three example programs

      - [examples/jigsaw_minus_nw/sw/src/main.cpp]  (module [MinusNw]),
      - [examples/jigsaw_baseline/sw/src/main.cpp]  (module [Baseline]),
      - [sw/examples/aes_host_baseline/main.cpp]    (module [AesHost]),

    together with the properties of the mailbox protocol and of the DMA
    control sequence that the design document states about them.

    The host programs are single threaded and talk to the card through
    the control registers of [coyote::cThread] and through a buffer that
    both sides can see.  They are modelled as state-passing programs over
    a world made of the (abstract) device, the bytes of the buffer, and
    the log of everything the host did, in program order. *)

From Stdlib Require Import ZArith Lia Ascii String List.
From stdpp Require Import base numbers list gmap strings.

Open Scope Z_scope.

(** ** Little-endian words

    [*(volatile uint64_t* )(base + off) = v] stores the eight bytes of
    [v], least significant first (the examples run on x86-64 hosts). *)

Fixpoint le_bytes (n : nat) (v : Z) : list Z :=
  match n with
  | O => []
  | S k => Z.land v 255 :: le_bytes k (Z.shiftr v 8)
  end.

Fixpoint le_value (bs : list Z) : Z :=
  match bs with
  | [] => 0
  | b :: r => Z.lor b (Z.shiftl (le_value r) 8)
  end.

(** [uint64_t] arithmetic wraps modulo 2^64. *)
Definition wrap64 (v : Z) : Z := Z.land v (Z.ones 64).

(** ** The shared buffer

    The buffer is an array of bytes, each a [Z] in [0, 255].  Every
    offset the programs use is a constant below 49 and the buffer they
    allocate has 16 KiB, so no access of the source is out of range; an
    access outside the list (undefined in C++) is a no-op for a store
    and reads 0 for a load. *)

Abbreviation region := (list Z) (only parsing).

Fixpoint store_bytes (m : region) (off : nat) (bs : list Z) : region :=
  match bs with
  | [] => m
  | b :: r => store_bytes (<[off := b]> m) (S off) r
  end.

Definition load_bytes (m : region) (off n : nat) : list Z :=
  (fun i => m !!! i) <$> seq off n.

Definition store8 (m : region) (off : nat) (v : Z) : region :=
  store_bytes m off (le_bytes 1 v).

Definition store64 (m : region) (off : nat) (v : Z) : region :=
  store_bytes m off (le_bytes 8 v).

Definition load8 (m : region) (off : nat) : Z := le_value (load_bytes m off 1).

Definition load64 (m : region) (off : nat) : Z := le_value (load_bytes m off 8).

(** ** What a run leaves behind

    One [std::cout] statement is one [EvPrint]: its string literals and
    the numbers streamed between them, in order.  The line is logged
    once its last number is known, so after the register accesses that
    produce it. *)

Inductive item :=
| Txt (s : string)
| Dec (v : Z)
| Hex (v : Z).

Inductive event :=
| EvSetCSR (val reg : Z)           (* setCSR(val, reg) *)
| EvGetCSR (reg res : Z)           (* getCSR(reg) returned res *)
| EvStore8 (off : nat) (v : Z)     (* base[off] = v *)
| EvStore64 (off : nat) (v : Z)    (* *(volatile uint64_t* )(base + off) = v *)
| EvLoad64 (off : nat) (res : Z)   (* *(volatile uint64_t* )(base + off) read res *)
| EvSleep (ns : Z)                 (* std::this_thread::sleep_for *)
| EvGetMem (size res : Z)          (* getMem({HPF, size}) returned res *)
| EvPrint (line : list item).

(** How a program can end: it returns, it is still polling when the
    budget of loop iterations is used up, it dies of an uncaught
    exception, or it reaches undefined behaviour. *)

Inductive outcome (W A : Type) :=
| Done (a : A) (w : W)
| Spin (w : W)
| Throw (msg : string) (w : W)
| Undefined (w : W).

Arguments Done {W A} a w.
Arguments Spin {W A} w.
Arguments Throw {W A} msg w.
Arguments Undefined {W A} w.

Definition final {W A} (o : outcome W A) : W :=
  match o with
  | Done _ w | Spin w | Throw _ w | Undefined w => w
  end.

(** The value a run returned, if it returned. *)
Definition returned {W A} (o : outcome W A) : option A :=
  match o with
  | Done a _ => Some a
  | _ => None
  end.

Definition M (W A : Type) := W -> outcome W A.

Definition ret {W A} (a : A) : M W A := fun w => Done a w.

Definition bind {W A B} (m : M W A) (k : A -> M W B) : M W B :=
  fun w =>
    match m w with
    | Done a w' => k a w'
    | Spin w' => Spin w'
    | Throw msg w' => Throw msg w'
    | Undefined w' => Undefined w'
    end.

Definition spin {W A} : M W A := fun w => Spin w.
Definition throw {W A} (msg : string) : M W A := fun w => Throw msg w.
Definition undefined {W A} : M W A := fun w => Undefined w.

Declare Scope host_scope.
Delimit Scope host_scope with host.
Notation "x <- m ;; k" := (bind m (fun x => k))
  (at level 100, m at next level, right associativity) : host_scope.
Notation "m ;; k" := (bind m (fun _ => k))
  (at level 100, right associativity) : host_scope.
Open Scope host_scope.

(** [while (cond) body;] with a budget of evaluations of [cond]. *)
Fixpoint while {W} (fuel : nat) (cond : M W bool) (body : M W unit) : M W unit :=
  match fuel with
  | O => spin
  | S n => b <- cond ;; if b then body ;; while n cond body else ret tt
  end.

(** [for (int i = 0; i < n; i++) body(i);] over the values of [i]. *)
Definition for_each {W A} (l : list A) (body : A -> M W unit) : M W unit :=
  foldr (fun a k => body a ;; k) (ret tt) l.

(** ** The card, as [cThread.hpp] presents it

    [cThread.hpp] is not part of the examples.  The card is any type of
    device states with the operations the programs call.  A register
    access may change the device and, because the card masters the bus,
    the bytes of the buffer; so may the passage of time. *)

Class Device (D : Type) := {
  dev_setCSR : Z -> Z -> D -> region -> D * region;
  dev_getCSR : Z -> D -> region -> Z * (D * region);
  dev_getCtid : D -> Z;
  dev_getMem : Z -> D -> Z * region * D;
  dev_elapse : Z -> D -> region -> D * region
}.

Record world (D : Type) := World { dev : D; mem : region; log : list event }.
Arguments World {D} dev mem log.
Arguments dev {D} w.
Arguments mem {D} w.
Arguments log {D} w.

Section Host.
Context {D : Type} `{Device D}.

Definition emit (e : event) : M (world D) unit :=
  fun w => Done tt (World (dev w) (mem w) (log w ++ [e])).

Definition setCSR (val reg : Z) : M (world D) unit :=
  fun w =>
    let '(d, m) := dev_setCSR val reg (dev w) (mem w) in
    Done tt (World d m (log w ++ [EvSetCSR val reg])).

Definition getCSR (reg : Z) : M (world D) Z :=
  fun w =>
    let '(v, (d, m)) := dev_getCSR reg (dev w) (mem w) in
    Done v (World d m (log w ++ [EvGetCSR reg v])).

Definition getCtid : M (world D) Z :=
  fun w => Done (dev_getCtid (dev w)) w.

(** The buffer of the world is the one [getMem] hands out. *)
Definition getMem (size : Z) : M (world D) Z :=
  fun w =>
    let '(p, m, d) := dev_getMem size (dev w) in
    Done p (World d m (log w ++ [EvGetMem size p])).

Definition sleep_for (ns : Z) : M (world D) unit :=
  fun w =>
    let '(d, m) := dev_elapse ns (dev w) (mem w) in
    Done tt (World d m (log w ++ [EvSleep ns])).

Definition vstore8 (off : nat) (v : Z) : M (world D) unit :=
  fun w => Done tt (World (dev w) (store8 (mem w) off v) (log w ++ [EvStore8 off v])).

Definition vstore64 (off : nat) (v : Z) : M (world D) unit :=
  fun w => Done tt (World (dev w) (store64 (mem w) off v) (log w ++ [EvStore64 off v])).

Definition vload64 (off : nat) : M (world D) Z :=
  fun w =>
    let v := load64 (mem w) off in
    Done v (World (dev w) (mem w) (log w ++ [EvLoad64 off v])).

Definition print (line : list item) : M (world D) unit := emit (EvPrint line).

(** [while (getCSR(reg) != 1) sleep_for(ns);] *)
Definition poll_csr (fuel : nat) (reg ns : Z) : M (world D) unit :=
  while fuel (v <- getCSR reg ;; ret (negb (v =? 1))) (sleep_for ns).
End Host.

Definition CLOCK_PERIOD_NS : Z := 4.
Definition EXIT_SUCCESS : Z := 0.
Definition EXIT_FAILURE : Z := 1.

(** ** examples/jigsaw_minus_nw: the DMA engine behind the mailbox *)

Module MinusNw.

(* enum class DMAEngineRegisters *)
Definition DMA_CMD_REG : Z := 0x00.
Definition DMA_SRC_ADDR_REG : Z := 0x08.
Definition DMA_DST_ADDR_REG : Z := 0x10.
Definition DMA_LEN_REG : Z := 0x18.
Definition DMA_STATUS_REG : Z := 0x20.
Definition DMA_TX_LEN_REG : Z := 0x38.

(* enum class JigsawHostControlRegisters *)
Definition MMIO_VADDR_REG : Z := 0.
Definition MMIO_CTRL_REG : Z := 1.
Definition MMIO_WRITE_STATUS_REG : Z := 2.
Definition MMIO_READ_STATUS_REG : Z := 3.
Definition COYOTE_PID_REG : Z := 4.

Section Program.
Context {D : Type} `{Device D}.

(** The request a read leaves in the buffer (lines 55-58). *)
Definition read_request (addr : Z) : M (world D) unit :=
  vstore8 24 0 ;;
  vstore64 25 addr ;;
  vstore64 33 0.

(** The request a write leaves in the buffer (lines 80-84). *)
Definition write_request (addr data : Z) : M (world D) unit :=
  vstore8 24 1 ;;
  vstore64 25 addr ;;
  vstore64 33 0 ;;
  vstore64 41 data.

(** The response of a read (line 70). *)
Definition read_response : M (world D) Z := vload64 16.

Definition read_mmio (fuel : nat) (addr : Z) : M (world D) Z :=
  setCSR 0 MMIO_READ_STATUS_REG ;;
  read_request addr ;;
  setCSR 1 MMIO_CTRL_REG ;;
  poll_csr fuel MMIO_READ_STATUS_REG CLOCK_PERIOD_NS ;;
  read_response.

Definition write_mmio (fuel : nat) (addr data : Z) : M (world D) unit :=
  setCSR 0 MMIO_WRITE_STATUS_REG ;;
  write_request addr data ;;
  setCSR 1 MMIO_CTRL_REG ;;
  poll_csr fuel MMIO_WRITE_STATUS_REG CLOCK_PERIOD_NS.

Definition INT_MAX : Z := 2147483647.

(** The wait for the DMA engine (lines 143-151).  The assignment in
    the loop condition binds looser than [&]: [status] receives the
    masked value, which is then compared with 1.  [fuel] bounds the
    polls of this loop, [inner] those of each mailbox handshake.
    [polling_count] is an [int]: incrementing it at [INT_MAX] is
    undefined. *)
Fixpoint poll_dma (fuel inner : nat) (polling_count : Z) : M (world D) Z :=
  match fuel with
  | O => spin
  | S n =>
      r <- read_mmio inner DMA_STATUS_REG ;;
      let status := Z.land r 0x1 in
      if negb (status =? 1) then
        (if Z.rem polling_count 1000 =? 0
         then print [Txt "Polling DMA status... count: "; Dec polling_count;
                     Txt " val: "; Dec status]
         else ret tt) ;;
        (if polling_count <? INT_MAX then ret tt else undefined) ;;
        sleep_for 1000 ;;
        poll_dma n inner (polling_count + 1)
      else ret status
  end.

(** [mem_addr] is [reinterpret_cast<uint64_t>(mem)]. *)
Definition benchmark_run (fuel : nat) (mem_addr : Z) : M (world D) unit :=
  ctid <- getCtid ;;
  setCSR (wrap64 ctid) COYOTE_PID_REG ;;
  setCSR mem_addr MMIO_VADDR_REG ;;
  src_addr <- read_mmio fuel DMA_SRC_ADDR_REG ;;
  print [Txt "DMA Source Address: 0x"; Hex src_addr] ;;
  dst_addr <- read_mmio fuel DMA_DST_ADDR_REG ;;
  print [Txt "DMA Destination Address: 0x"; Hex dst_addr] ;;
  tx_len <- read_mmio fuel DMA_TX_LEN_REG ;;
  print [Txt "DMA TX Length: "; Dec tx_len] ;;
  status <- read_mmio fuel DMA_STATUS_REG ;;
  print [Txt "DMA Status: "; Dec status] ;;
  print [Txt (String "010"%char "Starting H2D DMA Test...")] ;;
  print [Txt "MMIO VADDR: 0x"; Hex mem_addr] ;;
  vaddr <- getCSR MMIO_VADDR_REG ;;
  print [Txt "Reading MMIO VADDR: 0x"; Hex vaddr] ;;
  pid <- getCSR COYOTE_PID_REG ;;
  print [Txt "Reading coyote PID: "; Dec pid] ;;
  let h2d_dst_addr := wrap64 (mem_addr + 4096) in
  write_mmio fuel DMA_SRC_ADDR_REG h2d_dst_addr ;;
  print [Txt "Set DMA Source Address: 0x"; Hex h2d_dst_addr] ;;
  src_back <- read_mmio fuel DMA_SRC_ADDR_REG ;;
  print [Txt "Reading DMA Source Address: 0x"; Hex src_back] ;;
  let len := 1024 in
  write_mmio fuel DMA_LEN_REG len ;;
  print [Txt "Set DMA Length: "; Dec len] ;;
  len_back <- read_mmio fuel DMA_LEN_REG ;;
  print [Txt "Reading DMA LEN: "; Dec len_back] ;;
  write_mmio fuel DMA_CMD_REG 1 ;;
  print [Txt "Started DMA (Cmd: 1)"] ;;
  _ <- poll_dma fuel fuel 0 ;;
  print [Txt "DMA Completed!"] ;;
  status <- read_mmio fuel DMA_STATUS_REG ;;
  print [Txt "DMA Status: "; Dec status] ;;
  write_mmio fuel DMA_STATUS_REG 0 ;;
  tx_len <- read_mmio fuel DMA_TX_LEN_REG ;;
  print [Txt "DMA TX Length: "; Dec tx_len].

Definition run_bench (fuel : nat) (mem : Z) : M (world D) unit :=
  benchmark_run fuel mem.

(** [HEADER] comes from the headers of the library; it prints its
    argument as a banner. *)
Definition main (fuel : nat) : M (world D) Z :=
  mem <- getMem (16 * 1024) ;;
  if mem =? 0 then throw "Could not allocate memory; exiting..."
  else
    print [Txt "JIGSAW BASELINE"] ;;
    print [Txt "=== RUN 1 ==="] ;;
    run_bench fuel mem ;;
    print [Txt "=== RUN 2 ==="] ;;
    run_bench fuel mem ;;
    ret EXIT_SUCCESS.
End Program.
End MinusNw.

(** ** examples/jigsaw_baseline: the DMA engine behind plain registers *)

Module Baseline.

(* enum class JigsawRegisters *)
Definition DMA_CMD_REG : Z := 0.
Definition DMA_SRC_ADDR_REG : Z := 1.
Definition DMA_DST_ADDR_REG : Z := 2.
Definition DMA_LEN_REG : Z := 3.
Definition DMA_STATUS_REG : Z := 4.
Definition START_COMPUTATION_REG : Z := 5.
Definition CYCLES_PER_COMPUTATION_REG : Z := 6.
Definition COYOTE_PID_REG : Z := 7.
Definition COYOTE_DMA_TX_LEN_REG : Z := 8.

Section Program.
Context {D : Type} `{Device D}.

(** [printf("%02x ", ptr[i])]: a plain (not volatile) read of one
    byte of the buffer. *)
Definition print_byte (i : nat) : M (world D) unit :=
  fun w => print [Hex (mem w !!! i); Txt " "] w.

Definition benchmark_run (fuel : nat) (mem_addr : Z) : M (world D) unit :=
  setCSR mem_addr DMA_SRC_ADDR_REG ;;
  setCSR mem_addr DMA_DST_ADDR_REG ;;
  setCSR 32768 DMA_LEN_REG ;;
  ctid <- getCtid ;;
  setCSR (wrap64 ctid) COYOTE_PID_REG ;;
  setCSR 3 DMA_CMD_REG ;;
  poll_csr fuel DMA_STATUS_REG CLOCK_PERIOD_NS ;;
  status <- getCSR DMA_STATUS_REG ;;
  print [Txt "DMA_STATUS_REG: "; Dec status] ;;
  cmd <- getCSR DMA_CMD_REG ;;
  print [Txt "DMA_CMD_REG: "; Dec cmd] ;;
  tx_len <- getCSR COYOTE_DMA_TX_LEN_REG ;;
  print [Txt "COYOTE_DMA_TX_LEN_REG: "; Dec tx_len] ;;
  for_each (seq 0 64) print_byte.

Definition run_bench (fuel : nat) (mem : Z) : M (world D) unit :=
  benchmark_run fuel mem.

Definition main (fuel : nat) : M (world D) Z :=
  mem <- getMem (4 * 1024 * 1024) ;;
  if mem =? 0 then throw "Could not allocate memory; exiting..."
  else
    print [Txt "JIGSAW BASELINE"] ;;
    run_bench fuel mem ;;
    ret EXIT_SUCCESS.
End Program.
End Baseline.

(** ** sw/examples/aes_host_baseline: one AES transfer over host memory *)

Module AesHost.

Definition defSize : Z := 64 * 1024.
Definition rdSize : Z := 4 * 1024.

Definition keyLow : Z := 0xabf7158809cf4f3c.
Definition keyHigh : Z := 0x2b7e151628aed2a6.
Definition plainLow : Z := 0xe93d7e117393172a.
Definition plainHigh : Z := 0x6bc1bee22e409f96.
Definition cipherLow : Z := 0xa89ecaf32466ef97.
Definition cipherHigh : Z := 0x3ad77bb40d7a3660.

(** [cProcess.hpp] is not part of the examples: the process handle is
    any type with the operations [main] calls, and the constants of
    the header ([hugePageSize], the members of [IODevs]) come with
    it.  [invoke] may rewrite host memory. *)
Class Process (P : Type) := {
  hugePageSize : Z;
  HOST_MEM : Z;
  ERROR_DEV : Z;
  proc_userInIOSwtch : Z -> P -> Z;
  proc_getMem : Z -> P -> Z * P;
  proc_ioSwitch : Z -> P -> P;
  proc_setCSR : Z -> Z -> P -> P;
  proc_invoke : Z -> Z -> P -> gmap Z Z -> P * gmap Z Z
}.

Inductive call :=
| CGetMem (n_pages res : Z)      (* getMem({HOST_2M, n_pages}) returned res *)
| CIoSwitch (io_dev : Z)
| CSetCSR (val reg : Z)
| CInvoke (addr len : Z)         (* invoke({TRANSFER, addr, len}) *)
| CPrint (line : list item).

(** Host memory holds 64-bit words, keyed by their byte address. *)
Record world (P : Type) := World { proc : P; heap : gmap Z Z; calls : list call }.
Arguments World {P} proc heap calls.
Arguments proc {P} w.
Arguments heap {P} w.
Arguments calls {P} w.

(** The options of the command line: [--size] and [--iodev]. *)
Record cmdline := Cmdline { arg_size : option Z; arg_iodev : option Z }.

Section Program.
Context {P : Type} `{Process P}.

Definition getMem (n_pages : Z) : M (world P) Z :=
  fun w =>
    let '(p, pr) := proc_getMem n_pages (proc w) in
    Done p (World pr (heap w) (calls w ++ [CGetMem n_pages p])).

Definition ioSwitch (io_dev : Z) : M (world P) unit :=
  fun w => Done tt (World (proc_ioSwitch io_dev (proc w)) (heap w)
                          (calls w ++ [CIoSwitch io_dev])).

Definition setCSR (val reg : Z) : M (world P) unit :=
  fun w => Done tt (World (proc_setCSR val reg (proc w)) (heap w)
                          (calls w ++ [CSetCSR val reg])).

Definition invoke (addr len : Z) : M (world P) unit :=
  fun w =>
    let '(pr, h) := proc_invoke addr len (proc w) (heap w) in
    Done tt (World pr h (calls w ++ [CInvoke addr len])).

Definition print (line : list item) : M (world P) unit :=
  fun w => Done tt (World (proc w) (heap w) (calls w ++ [CPrint line])).

(** [((uint64_t * )p)[i] = v]; through a null pointer it is undefined. *)
Definition store_word (p i v : Z) : M (world P) unit :=
  fun w =>
    if p =? 0 then Undefined w
    else Done tt (World (proc w) (<[p + 8 * i := v]> (heap w)) (calls w)).

(** [((uint64_t * )p)[i]] *)
Definition load_word (p i : Z) : M (world P) Z :=
  fun w =>
    if p =? 0 then Undefined w
    else Done (default 0 (heap w !! (p + 8 * i))) w.

(** The comparison loop of lines 85-92; [true] is [k] left alone. *)
Fixpoint check (tMem : Z) (idx : list Z) : M (world P) bool :=
  match idx with
  | [] => ret true
  | i :: rest =>
      v <- load_word tMem i ;;
      if (if Z.rem i 2 =? 0 then negb (v =? cipherLow) else negb (v =? cipherHigh))
      then ret false
      else check tMem rest
  end.

(** Lines 65-94, with the size and the device chosen. *)
Definition transfer (size io_dev : Z) : M (world P) Z :=
  if hugePageSize =? 0 then undefined
  else
    let n_pages := size / hugePageSize + (if size mod hugePageSize >? 0 then 1 else 0) in
    tMem <- getMem n_pages ;;
    rMem <- getMem n_pages ;;
    for_each (seqZ 0 (size / 8))
      (fun i => store_word tMem i (if Z.rem i 2 =? 0 then plainLow else plainHigh)) ;;
    ioSwitch io_dev ;;
    setCSR keyLow 0 ;;
    setCSR keyHigh 1 ;;
    invoke tMem size ;;
    k <- check tMem (seqZ 0 (size / 8)) ;;
    print [Txt (if k : bool then "Success: cipher text matches test vectors!"
                else "Error: found cipher text that doesn't match the test vector")] ;;
    ret 0.

Definition main (args : cmdline) : M (world P) Z :=
  let size := default defSize (arg_size args) in
  match arg_iodev args with
  | Some d =>
      fun w =>
        let io_dev := proc_userInIOSwtch d (proc w) in
        if io_dev =? ERROR_DEV then
          (print [Txt "User entered an invalid IO configuration"] ;;
           ret EXIT_FAILURE) w
        else
          (print [Txt "User selected IO device: "; Dec io_dev] ;;
           transfer size io_dev) w
  | None => transfer size HOST_MEM
  end.
End Program.
End AesHost.

(** ** Test doubles

    The logic on the card is not part of the host programs.  The
    doubles below stand in for it where a property speaks of a card
    that behaves in a given way. *)

Module Double.

(** The card of [jigsaw_minus_nw]: a bank of DMA engine registers
    behind the mailbox, and the host-control registers.  At a trigger
    the card serves the request it finds in the buffer; the matching
    completion register shows 1 once it has been polled [latency]
    times.  [on_write] is what a register write does to the bank. *)
Record card := Card {
  regs : gmap Z Z;
  csr : gmap Z Z;
  raising : option Z;
  delay : nat;
  latency : nat;
  on_write : Z -> Z -> gmap Z Z -> gmap Z Z;
  buffer : Z;
  ctid : Z
}.

Definition card_setCSR (val reg : Z) (c : card) (m : region) : card * region :=
  let c' := Card (regs c) (<[reg := val]> (csr c)) (raising c) (delay c)
                 (latency c) (on_write c) (buffer c) (ctid c) in
  if (reg =? MinusNw.MMIO_CTRL_REG) && (val =? 1) then
    let addr := load64 m 25 in
    match load8 m 24 with
    | 0 =>
        (Card (regs c) (csr c') (Some MinusNw.MMIO_READ_STATUS_REG) (latency c)
              (latency c) (on_write c) (buffer c) (ctid c),
         store64 m 16 (default 0 (regs c !! addr)))
    | 1 =>
        (Card (on_write c addr (load64 m 41) (regs c)) (csr c')
              (Some MinusNw.MMIO_WRITE_STATUS_REG) (latency c)
              (latency c) (on_write c) (buffer c) (ctid c),
         m)
    | _ => (c', m)
    end
  else (c', m).

Definition card_getCSR (reg : Z) (c : card) (m : region) : Z * (card * region) :=
  if decide (raising c = Some reg) then
    match delay c with
    | O => (1, (Card (regs c) (<[reg := 1]> (csr c)) None O
                     (latency c) (on_write c) (buffer c) (ctid c), m))
    | S k => (default 0 (csr c !! reg),
              (Card (regs c) (csr c) (raising c) k
                    (latency c) (on_write c) (buffer c) (ctid c), m))
    end
  else (default 0 (csr c !! reg), (c, m)).

(** An allocation yields [buffer] (0 when it fails) and, when it
    succeeds, [size] zero bytes. *)
Definition card_getMem (size : Z) (c : card) : Z * region * card :=
  (buffer c, if buffer c =? 0 then [] else repeat 0 (Z.to_nat size), c).

#[global] Instance card_device : Device card := {
  dev_setCSR := card_setCSR;
  dev_getCSR := card_getCSR;
  dev_getCtid := ctid;
  dev_getMem := card_getMem;
  dev_elapse := fun _ c m => (c, m)
}.

(** Pure storage: a register holds what was last written to it. *)
Definition storage (reg v : Z) (bank : gmap Z Z) : gmap Z Z := <[reg := v]> bank.

(** A DMA engine that completes at once: a command with the start bit
    raises bit 0 of the status register and reports [tx len] bytes
    moved, [len] being the programmed length. *)
Definition engine (tx : Z -> Z) (reg v : Z) (bank : gmap Z Z) : gmap Z Z :=
  let bank' := <[reg := v]> bank in
  if (reg =? MinusNw.DMA_CMD_REG) && Z.testbit v 0 then
    <[MinusNw.DMA_STATUS_REG := 1]>
      (<[MinusNw.DMA_TX_LEN_REG := tx (default 0 (bank !! MinusNw.DMA_LEN_REG))]> bank')
  else bank'.

Definition fresh_card (lat : nat) (f : Z -> Z -> gmap Z Z -> gmap Z Z)
    (bank : gmap Z Z) (buf : Z) : card :=
  Card bank ∅ None O lat f buf 7.

(** A card whose engine takes its time.  The registers behind the
    mailbox are pure storage; once a command with the start bit is in
    the command register, the status register takes the value
    [s_status] when [s_busy] more nanoseconds have passed. *)
Record slow := Slow { s_card : card; s_busy : Z; s_status : Z }.

Definition slow_elapse (ns : Z) (s : slow) (m : region) : slow * region :=
  let c := s_card s in
  if Z.testbit (default 0 (regs c !! MinusNw.DMA_CMD_REG)) 0 && (0 <? s_busy s) then
    if s_busy s <=? ns then
      (Slow (Card (<[MinusNw.DMA_STATUS_REG := s_status s]> (regs c)) (csr c)
               (raising c) (delay c) (latency c) (on_write c) (buffer c) (ctid c))
         0 (s_status s), m)
    else (Slow c (s_busy s - ns) (s_status s), m)
  else (s, m).

#[global] Instance slow_device : Device slow := {
  dev_setCSR := fun val reg s m =>
    let '(c, m') := card_setCSR val reg (s_card s) m in
    (Slow c (s_busy s) (s_status s), m');
  dev_getCSR := fun reg s m =>
    let '(v, (c, m')) := card_getCSR reg (s_card s) m in
    (v, (Slow c (s_busy s) (s_status s), m'));
  dev_getCtid := fun s => ctid (s_card s);
  dev_getMem := fun size s =>
    let '(p, m, c) := card_getMem size (s_card s) in
    (p, m, Slow c (s_busy s) (s_status s));
  dev_elapse := slow_elapse
}.

(** The card of [jigsaw_baseline]: the registers are reached
    directly. *)
Record direct := Direct {
  d_regs : gmap Z Z;
  d_on_write : Z -> Z -> gmap Z Z -> gmap Z Z;
  d_buffer : Z;
  d_ctid : Z
}.

#[global] Instance direct_device : Device direct := {
  dev_setCSR := fun val reg c m =>
    (Direct (d_on_write c reg val (d_regs c)) (d_on_write c) (d_buffer c) (d_ctid c), m);
  dev_getCSR := fun reg c m => (default 0 (d_regs c !! reg), (c, m));
  dev_getCtid := d_ctid;
  dev_getMem := fun size c =>
    (d_buffer c, if d_buffer c =? 0 then [] else repeat 0 (Z.to_nat size), c);
  dev_elapse := fun _ c m => (c, m)
}.

(** The baseline engine: a command with the start bit sets the status
    register to [status] and reports [tx len] bytes moved. *)
Definition direct_engine (status : Z) (tx : Z -> Z) (reg v : Z) (bank : gmap Z Z)
    : gmap Z Z :=
  let bank' := <[reg := v]> bank in
  if (reg =? Baseline.DMA_CMD_REG) && Z.testbit v 0 then
    <[Baseline.DMA_STATUS_REG := status]>
      (<[Baseline.COYOTE_DMA_TX_LEN_REG := tx (default 0 (bank !! Baseline.DMA_LEN_REG))]> bank')
  else bank'.

(** A process handle whose allocations return the pointers of
    [allocs] in turn (0 once they are used up), and whose transfer
    leaves host memory alone. *)
Record process := Process { allocs : list Z }.

#[global] Instance process_proc : AesHost.Process process := {
  AesHost.hugePageSize := 2 * 1024 * 1024;
  AesHost.HOST_MEM := 0;
  AesHost.ERROR_DEV := 255;
  AesHost.proc_userInIOSwtch := fun d _ => if d <? 4 then d else 255;
  AesHost.proc_getMem := fun _ p =>
    match allocs p with
    | [] => (0, p)
    | a :: rest => (a, Process rest)
    end;
  AesHost.proc_ioSwitch := fun _ p => p;
  AesHost.proc_setCSR := fun _ _ p => p;
  AesHost.proc_invoke := fun _ _ p h => (p, h)
}.

(** Worlds to run the programs in: the card of [jigsaw_minus_nw] with
    the 16 KiB buffer at address 65536, before and after [main] has
    allocated it, and the card of [jigsaw_baseline] with the part of
    its buffer that the program looks at. *)
Definition engine_world (lat : nat) (tx : Z -> Z) : world card :=
  World (fresh_card lat (engine tx) ∅ 65536) (repeat 0 (Z.to_nat (16 * 1024))) [].

Definition boot_world (lat : nat) (tx : Z -> Z) (buf : Z) : world card :=
  World (fresh_card lat (engine tx) ∅ buf) [] [].

Definition storage_world (lat : nat) (bank : gmap Z Z) : world card :=
  World (fresh_card lat storage bank 65536) (repeat 0 (Z.to_nat (16 * 1024))) [].

Definition direct_world (status : Z) (tx : Z -> Z) : world direct :=
  World (Direct ∅ (direct_engine status tx) 4096 7) (repeat 0 64%nat) [].

Definition direct_boot_world (buf : Z) : world direct :=
  World (Direct ∅ (direct_engine 1 (fun len => len)) buf 7) [] [].

(** The slow card with the 16 KiB buffer, registers [bank], an engine
    that needs [busy] nanoseconds and then shows [status]. *)
Definition slow_world (bank : gmap Z Z) (busy status : Z) : world slow :=
  World (Slow (fresh_card 0 storage bank 65536) busy status)
    (repeat 0 (Z.to_nat (16 * 1024))) [].
End Double.

(** ** Reading a log *)

(** The register-level operations of a run of [jigsaw_minus_nw]: a
    write counts when the card is triggered with a write request in the
    buffer, a read when its response is fetched.  The request is the
    one the host last stored. *)

Inductive op :=
| Rd (addr res : Z)
| Wr (addr data : Z).

Record fields := Fields { f_opcode : Z; f_addr : Z; f_data : Z }.

Definition host_store (f : fields) (e : event) : fields :=
  match e with
  | EvStore8 off v =>
      if Nat.eqb off 24 then Fields v (f_addr f) (f_data f) else f
  | EvStore64 off v =>
      if Nat.eqb off 25 then Fields (f_opcode f) v (f_data f)
      else if Nat.eqb off 41 then Fields (f_opcode f) (f_addr f) v
      else f
  | _ => f
  end.

Definition is_trigger (e : event) : bool :=
  match e with
  | EvSetCSR val reg => (val =? 1) && (reg =? MinusNw.MMIO_CTRL_REG)
  | _ => false
  end.

Definition is_field_store (e : event) : bool :=
  match e with
  | EvStore8 _ _ | EvStore64 _ _ => true
  | _ => false
  end.

Definition op_of (f : fields) (e : event) : list op :=
  match e with
  | EvSetCSR _ _ =>
      if is_trigger e && (f_opcode f =? 1) then [Wr (f_addr f) (f_data f)] else []
  | EvLoad64 off v => if Nat.eqb off 16 then [Rd (f_addr f) v] else []
  | _ => []
  end.

Fixpoint ops (f : fields) (evs : list event) : list op :=
  match evs with
  | [] => []
  | e :: rest => op_of f e ++ ops (host_store f e) rest
  end.

(** What a run printed, and the string literals of it. *)
Definition printed (evs : list event) : list (list item) :=
  omap (fun e => match e with EvPrint l => Some l | _ => None end) evs.


Definition csr_writes (evs : list event) : list (Z * Z) :=
  omap (fun e => match e with EvSetCSR v r => Some (r, v) | _ => None end) evs.

(** The readings of register [reg] that one poll loop logged. *)
Definition polls (reg ns : Z) (vs : list Z) : list event :=
  flat_map (fun v => [EvGetCSR reg v; EvSleep ns]) vs.

(** The request fields after the stores of [evs]. *)
Definition after (f : fields) (evs : list event) : fields :=
  fold_left host_store evs f.

(** An event that neither stores into the buffer nor triggers the card. *)
Definition quiet (e : event) : Prop :=
  is_field_store e = false /\ is_trigger e = false.

(** What the card answered during one run of [MinusNw.benchmark_run]:
    the four registers read first, the two host-control registers read
    directly, the two registers read back, the status readings that made
    the run wait, the one that ended the wait, and the two registers
    read last. *)
Record readings := Readings {
  r_src : Z;
  r_dst : Z;
  r_tx_len : Z;
  r_status : Z;
  r_vaddr : Z;
  r_pid : Z;
  r_src_back : Z;
  r_len_back : Z;
  r_waits : list Z;
  r_done : Z;
  r_status_after : Z;
  r_tx_len_after : Z
}.

(** The register-level operations of a completed run on the buffer at
    [mem_addr], given the answers of the card. *)
Definition scenario_ops (mem_addr : Z) (r : readings) : list op :=
  [Rd MinusNw.DMA_SRC_ADDR_REG (r_src r);
   Rd MinusNw.DMA_DST_ADDR_REG (r_dst r);
   Rd MinusNw.DMA_TX_LEN_REG (r_tx_len r);
   Rd MinusNw.DMA_STATUS_REG (r_status r);
   Wr MinusNw.DMA_SRC_ADDR_REG (wrap64 (mem_addr + 4096));
   Rd MinusNw.DMA_SRC_ADDR_REG (r_src_back r);
   Wr MinusNw.DMA_LEN_REG 1024;
   Rd MinusNw.DMA_LEN_REG (r_len_back r);
   Wr MinusNw.DMA_CMD_REG 1]
  ++ map (Rd MinusNw.DMA_STATUS_REG) (r_waits r)
  ++ [Rd MinusNw.DMA_STATUS_REG (r_done r);
      Rd MinusNw.DMA_STATUS_REG (r_status_after r);
      Wr MinusNw.DMA_STATUS_REG 0;
      Rd MinusNw.DMA_TX_LEN_REG (r_tx_len_after r)].

(** The progress lines of the wait: one for every thousandth reading. *)
Fixpoint progress (count : Z) (waits : list Z) : list (list item) :=
  match waits with
  | [] => []
  | v :: rest =>
      (if Z.rem count 1000 =? 0
       then [[Txt "Polling DMA status... count: "; Dec count;
              Txt " val: "; Dec (Z.land v 1)]]
       else [])
      ++ progress (count + 1) rest
  end.

(** What a completed run printed up to the transfer, and after it. *)
Definition scenario_preamble (mem_addr : Z) (r : readings) : list (list item) :=
  [[Txt "DMA Source Address: 0x"; Hex (r_src r)];
   [Txt "DMA Destination Address: 0x"; Hex (r_dst r)];
   [Txt "DMA TX Length: "; Dec (r_tx_len r)];
   [Txt "DMA Status: "; Dec (r_status r)];
   [Txt (String "010"%char "Starting H2D DMA Test...")];
   [Txt "MMIO VADDR: 0x"; Hex mem_addr];
   [Txt "Reading MMIO VADDR: 0x"; Hex (r_vaddr r)];
   [Txt "Reading coyote PID: "; Dec (r_pid r)];
   [Txt "Set DMA Source Address: 0x"; Hex (wrap64 (mem_addr + 4096))];
   [Txt "Reading DMA Source Address: 0x"; Hex (r_src_back r)];
   [Txt "Set DMA Length: "; Dec 1024];
   [Txt "Reading DMA LEN: "; Dec (r_len_back r)];
   [Txt "Started DMA (Cmd: 1)"]].

Definition scenario_report (r : readings) : list (list item) :=
  [[Txt "DMA Completed!"];
   [Txt "DMA Status: "; Dec (r_status_after r)];
   [Txt "DMA TX Length: "; Dec (r_tx_len_after r)]].

Definition scenario_printed (mem_addr : Z) (r : readings) : list (list item) :=
  scenario_preamble mem_addr r ++ progress 0 (r_waits r) ++ scenario_report r.

(** The answers fit a completed run: bit 0 was clear in every reading
    that made it wait and set in the one that ended the wait. *)
Definition completed (r : readings) : Prop :=
  Forall (fun v => Z.land v 1 <> 1) (r_waits r) /\ Z.land (r_done r) 1 = 1.


(** The dump of the first 64 bytes of the buffer that ends a run of
    [Baseline.benchmark_run]. *)
Definition dump (m : region) : list event :=
  map (fun i : nat => EvPrint [Hex (m !!! i); Txt " "]) (seq 0 64).

(** A summary of a stretch of log: the operations it holds and the
    request fields it leaves, both as functions of the fields it
    starts from, and the lines it prints. *)
Definition digest (evs : list event) (o : fields -> list op)
    (a : fields -> fields) (p : list (list item)) : Prop :=
  (forall f, ops f evs = o f /\ after f evs = a f) /\ printed evs = p.

(** Every returning run of [m] appends to the log a stretch that
    satisfies [Q]. *)
Definition spec {D A} (m : M (world D) A) (Q : A -> list event -> Prop) : Prop :=
  forall w a w', m w = Done a w' -> exists evs, log w' = log w ++ evs /\ Q a evs.

(** A run that has neither thrown nor reached undefined behaviour: it
    has returned or is still polling. *)
Definition steady {W A} (o : outcome W A) : Prop :=
  match o with
  | Done _ _ | Spin _ => True
  | Throw _ _ | Undefined _ => False
  end.

(** The two direct register writes that carry one mailbox operation:
    the clear of its completion register and the trigger. *)
Definition status_reg_of (o : op) : Z :=
  match o with
  | Rd _ _ => MinusNw.MMIO_READ_STATUS_REG
  | Wr _ _ => MinusNw.MMIO_WRITE_STATUS_REG
  end.

Definition handshake_writes (o : op) : list (Z * Z) :=
  [(status_reg_of o, 0); (MinusNw.MMIO_CTRL_REG, 1)].

(** [digest], with the direct register writes of the stretch. *)
Definition traffic (evs : list event) (o : fields -> list op)
    (a : fields -> fields) (p : list (list item)) (c : list (Z * Z)) : Prop :=
  digest evs o a p /\ csr_writes evs = c.

(** A program of the AES example only adds to the record of calls. *)
Definition grows {P A} (m : M (AesHost.world P) A) : Prop :=
  forall w, exists ext, AesHost.calls (final (m w)) = AesHost.calls w ++ ext.

(** * Properties *)

(** ** Words and bytes *)

Lemma le_value_le_bytes (n : nat) (v : Z) :
  le_value (le_bytes n v) = Z.land v (Z.ones (8 * Z.of_nat n)).
Proof.
  revert v; induction n as [|k IH]; intros v.
  - simpl. now rewrite Z.land_0_r.
  - cbn [le_bytes le_value]. rewrite IH.
    change 255 with (Z.ones 8).
    apply Z.bits_inj'; intros i Hi.
    rewrite Z.lor_spec, !Z.land_spec, !Z.testbit_ones_nonneg by lia.
    destruct (Z.ltb_spec i 8) as [Hlt|Hge].
    + rewrite Z.shiftl_spec_low by lia.
      replace (i <? 8 * Z.of_nat (S k)) with true
        by (symmetry; apply Z.ltb_lt; lia).
      now rewrite orb_false_r.
    + rewrite Z.shiftl_spec, Z.land_spec, Z.shiftr_spec by lia.
      rewrite Z.testbit_ones_nonneg by lia.
      replace (i - 8 + 8) with i by lia.
      replace (i - 8 <? 8 * Z.of_nat k) with (i <? 8 * Z.of_nat (S k)).
      * now rewrite andb_false_r.
      * destruct (Z.ltb_spec i (8 * Z.of_nat (S k))),
                 (Z.ltb_spec (i - 8) (8 * Z.of_nat k)); lia || reflexivity.
Qed.

Lemma wrap64_small (v : Z) : 0 <= v < 2 ^ 64 -> wrap64 v = v.
Proof.
  intros Hv. unfold wrap64. rewrite Z.land_ones by lia.
  now apply Z.mod_small.
Qed.

Lemma le_value_le_bytes_8 (v : Z) : le_value (le_bytes 8 v) = wrap64 v.
Proof. now rewrite le_value_le_bytes. Qed.

Lemma length_le_bytes (n : nat) (v : Z) : length (le_bytes n v) = n.
Proof. revert v; induction n; intros; simpl; auto. Qed.

(** ** Stores and loads on the buffer *)

Lemma length_store_bytes (bs : list Z) (m : region) (off : nat) :
  length (store_bytes m off bs) = length m.
Proof.
  revert m off; induction bs as [|b r IH]; intros m off; simpl; [easy|].
  now rewrite IH, length_insert.
Qed.

Lemma lookup_store_bytes_ne (bs : list Z) (m : region) (off i : nat) :
  (i < off \/ off + length bs <= i)%nat ->
  store_bytes m off bs !! i = m !! i.
Proof.
  revert m off; induction bs as [|b r IH]; intros m off Hi; simpl in *; [easy|].
  rewrite IH by lia. apply list_lookup_insert_ne. lia.
Qed.

Lemma load_bytes_cons (m : region) (off n : nat) :
  load_bytes m off (S n) = m !!! off :: load_bytes m (S off) n.
Proof. reflexivity. Qed.

Lemma load_bytes_store_bytes (bs : list Z) (m : region) (off : nat) :
  (off + length bs <= length m)%nat ->
  load_bytes (store_bytes m off bs) off (length bs) = bs.
Proof.
  revert m off; induction bs as [|b r IH]; intros m off Hlen; [easy|].
  cbn [length store_bytes] in *. rewrite load_bytes_cons. f_equal.
  - apply list_lookup_total_correct.
    rewrite lookup_store_bytes_ne by lia.
    apply list_lookup_insert_eq. lia.
  - apply IH. rewrite length_insert. lia.
Qed.

Lemma load_bytes_store_bytes_ne (bs : list Z) (m : region) (off off' n : nat) :
  (off' + n <= off \/ off + length bs <= off')%nat ->
  load_bytes (store_bytes m off bs) off' n = load_bytes m off' n.
Proof.
  revert off'; induction n as [|k IH]; intros off' Hd; [easy|].
  rewrite !load_bytes_cons, IH by lia. f_equal.
  rewrite !list_lookup_total_alt. now rewrite lookup_store_bytes_ne by lia.
Qed.

Lemma load64_store64 (m : region) (off : nat) (v : Z) :
  (off + 8 <= length m)%nat -> load64 (store64 m off v) off = wrap64 v.
Proof.
  intros Hlen. unfold load64, store64.
  rewrite <- (length_le_bytes 8 v) at 2.
  rewrite load_bytes_store_bytes by (rewrite length_le_bytes; lia).
  apply le_value_le_bytes_8.
Qed.

Lemma load64_store64_ne (m : region) (off off' : nat) (v : Z) :
  (off' + 8 <= off \/ off + 8 <= off')%nat ->
  load64 (store64 m off v) off' = load64 m off'.
Proof.
  intros Hd. unfold load64, store64.
  now rewrite load_bytes_store_bytes_ne by (rewrite length_le_bytes; lia).
Qed.

Lemma load64_store8_ne (m : region) (off off' : nat) (v : Z) :
  (off' + 8 <= off \/ off < off')%nat ->
  load64 (store8 m off v) off' = load64 m off'.
Proof.
  intros Hd. unfold load64, store8.
  now rewrite load_bytes_store_bytes_ne by (rewrite length_le_bytes; lia).
Qed.

Lemma load8_store8 (m : region) (off : nat) (v : Z) :
  (off < length m)%nat -> load8 (store8 m off v) off = Z.land v 255.
Proof.
  intros Hlen. unfold load8, store8.
  rewrite <- (length_le_bytes 1 v) at 2.
  rewrite load_bytes_store_bytes by (rewrite length_le_bytes; lia).
  simpl. now rewrite Z.lor_0_r.
Qed.

Lemma load8_store64_ne (m : region) (off off' : nat) (v : Z) :
  (off' < off \/ off + 8 <= off')%nat ->
  load8 (store64 m off v) off' = load8 m off'.
Proof.
  intros Hd. unfold load8, store64.
  now rewrite load_bytes_store_bytes_ne by (rewrite length_le_bytes; lia).
Qed.

Lemma length_store64 (m : region) (off : nat) (v : Z) :
  length (store64 m off v) = length m.
Proof. apply length_store_bytes. Qed.

Lemma length_store8 (m : region) (off : nat) (v : Z) :
  length (store8 m off v) = length m.
Proof. apply length_store_bytes. Qed.

Lemma lookup_store64_ne (m : region) (off i : nat) (v : Z) :
  (i < off \/ off + 8 <= i)%nat -> store64 m off v !! i = m !! i.
Proof. intros Hi. apply lookup_store_bytes_ne. now rewrite length_le_bytes. Qed.

Lemma lookup_store8_ne (m : region) (off i : nat) (v : Z) :
  i <> off -> store8 m off v !! i = m !! i.
Proof. intros Hi. apply lookup_store_bytes_ne. rewrite length_le_bytes. lia. Qed.

Lemma lookup_store8 (m : region) (off : nat) (v : Z) :
  (off < length m)%nat -> store8 m off v !! off = Some (Z.land v 255).
Proof. intros Hlen. unfold store8. simpl. now apply list_lookup_insert_eq. Qed.

(** ** The mailbox codec *)

Lemma write_request_loads (m : region) (addr data : Z) :
  (49 <= length m)%nat ->
  let m' := store64 (store64 (store64 (store8 m 24 1) 25 addr) 33 0) 41 data in
  m' !! 24%nat = Some 1 /\ load8 m' 24 = 1 /\
  load64 m' 25 = wrap64 addr /\ load64 m' 33 = 0 /\
  load64 m' 41 = wrap64 data /\ length m' = length m.
Proof.
  intros Hlen m'. subst m'. repeat split.
  - rewrite !lookup_store64_ne by lia. rewrite lookup_store8 by lia. reflexivity.
  - rewrite !load8_store64_ne by lia. now rewrite load8_store8 by lia.
  - rewrite !load64_store64_ne by lia.
    now rewrite load64_store64 by (rewrite length_store8; lia).
  - rewrite load64_store64_ne by lia.
    now rewrite load64_store64 by (rewrite length_store64, length_store8; lia).
  - now rewrite load64_store64 by (rewrite !length_store64, length_store8; lia).
  - now rewrite !length_store64, length_store8.
Qed.

Lemma read_request_loads (m : region) (addr : Z) :
  (41 <= length m)%nat ->
  let m' := store64 (store64 (store8 m 24 0) 25 addr) 33 0 in
  m' !! 24%nat = Some 0 /\ load8 m' 24 = 0 /\
  load64 m' 25 = wrap64 addr /\ load64 m' 33 = 0 /\
  length m' = length m.
Proof.
  intros Hlen m'. subst m'. repeat split.
  - rewrite !lookup_store64_ne by lia. rewrite lookup_store8 by lia. reflexivity.
  - rewrite !load8_store64_ne by lia. now rewrite load8_store8 by lia.
  - rewrite !load64_store64_ne by lia.
    now rewrite load64_store64 by (rewrite length_store8; lia).
  - now rewrite load64_store64 by (rewrite length_store64, length_store8; lia).
  - now rewrite !length_store64, length_store8.
Qed.

Section Codec.
Context {D : Type} `{Device D}.

(** C1.  Layout of the mailbox in the indirect variant: a write
    request leaves opcode 1 in the byte at offset 24, the register
    address in the eight bytes at offset 25, a length of 0 at offset
    33 and the payload at offset 41; a read request leaves opcode 0 at
    offset 24 with the same address and length fields; the response
    is the eight-byte value at offset 16. *)
Theorem mailbox_layout (w : world D) (addr data : Z) :
  (49 <= length (mem w))%nat ->
  0 <= addr < 2 ^ 64 ->
  0 <= data < 2 ^ 64 ->
  (exists w1, MinusNw.write_request addr data w = Done tt w1 /\
     mem w1 !! 24%nat = Some 1 /\
     load64 (mem w1) 25 = addr /\
     load64 (mem w1) 33 = 0 /\
     load64 (mem w1) 41 = data) /\
  (exists w2, MinusNw.read_request addr w = Done tt w2 /\
     mem w2 !! 24%nat = Some 0 /\
     load64 (mem w2) 25 = addr /\
     load64 (mem w2) 33 = 0) /\
  (exists w3, MinusNw.read_response w
              = Done (le_value (load_bytes (mem w) 16 8)) w3 /\
     mem w3 = mem w).
Proof.
  intros Hlen Haddr Hdata. repeat split.
  - eexists. split; [reflexivity|]. cbn [mem].
    destruct (write_request_loads (mem w) addr data Hlen)
      as (Hop & _ & Ha & Hl & Hd & _).
    rewrite wrap64_small in Ha, Hd by assumption. auto.
  - eexists. split; [reflexivity|]. cbn [mem].
    destruct (read_request_loads (mem w) addr ltac:(lia))
      as (Hop & _ & Ha & Hl & _).
    rewrite wrap64_small in Ha by assumption. auto.
  - eexists. split; reflexivity.
Qed.

(** C10.  Encoding a read request touches the bytes 24 to 40 of the
    buffer only: every other byte, hence the payload field at 41 and
    the response field at 16, keeps its value; the device is left
    alone and the log grows by the three stores. *)
Theorem read_request_frame (w : world D) (addr : Z) :
  exists w',
    MinusNw.read_request addr w = Done tt w' /\
    dev w' = dev w /\
    length (mem w') = length (mem w) /\
    (forall i : nat, (i < 24 \/ 41 <= i)%nat -> mem w' !! i = mem w !! i) /\
    load64 (mem w') 41 = load64 (mem w) 41 /\
    load64 (mem w') 16 = load64 (mem w) 16 /\
    log w' = log w ++ [EvStore8 24 0; EvStore64 25 addr; EvStore64 33 0].
Proof.
  eexists. split; [reflexivity|]. cbn [dev mem log]. repeat split.
  - now rewrite !length_store64, length_store8.
  - intros i Hi.
    rewrite !lookup_store64_ne, lookup_store8_ne by lia. reflexivity.
  - now rewrite !load64_store64_ne, load64_store8_ne by lia.
  - now rewrite !load64_store64_ne, load64_store8_ne by lia.
  - now rewrite <- !app_assoc.
Qed.
End Codec.

(** ** The mailbox handshake, on any card *)

Lemma polls_quiet (reg ns : Z) (vs : list Z) : Forall quiet (polls reg ns vs).
Proof.
  induction vs as [|v r IH]; simpl; [constructor|].
  repeat constructor; assumption.
Qed.

Lemma bind_step {W A B} (m : M W A) (k : A -> M W B) (w w' : W) (a : A) :
  m w = Done a w' -> bind m k w = k a w'.
Proof. intros Hm. unfold bind. now rewrite Hm. Qed.

Lemma returned_done {W A} (o : outcome W A) (a : A) :
  returned o = Some a -> o = Done a (final o).
Proof. destruct o; cbn; intros Hr; now inversion Hr. Qed.

Section Handshake.
Context {D : Type} `{Device D}.

Lemma bind_done {A B} (m : M (world D) A) (k : A -> M (world D) B)
    (w w'' : world D) (b : B) :
  bind m k w = Done b w'' ->
  exists a w', m w = Done a w' /\ k a w' = Done b w''.
Proof.
  unfold bind. destruct (m w) as [a w'| | |]; try discriminate.
  intros Hk. eauto.
Qed.

(** A poll loop logs the readings that made it wait, each followed by
    its sleep, and leaves on a reading of exactly 1. *)
Lemma poll_csr_log (fuel : nat) (reg ns : Z) (w : world D) :
  match poll_csr fuel reg ns w with
  | Done _ w' =>
      exists vs, log w' = log w ++ polls reg ns vs ++ [EvGetCSR reg 1] /\
                 Forall (fun v => v <> 1) vs
  | Spin w' =>
      exists vs, log w' = log w ++ polls reg ns vs /\
                 Forall (fun v => v <> 1) vs /\ length vs = fuel
  | _ => False
  end.
Proof.
  unfold poll_csr. revert w.
  induction fuel as [|n IH]; intros w.
  - simpl. exists []. simpl. now rewrite app_nil_r.
  - cbn [while]. unfold bind at 1. unfold bind at 1. unfold getCSR at 1.
    destruct (dev_getCSR reg (dev w) (mem w)) as [v [d m]].
    unfold ret at 1.
    destruct (Z.eqb_spec v 1) as [->|Hne]; cbn [negb].
    + exists []. simpl. auto.
    + unfold bind at 1. unfold sleep_for at 1. cbn [dev mem log].
      destruct (dev_elapse ns d m) as [d' m'].
      specialize (IH (World d' m' ((log w ++ [EvGetCSR reg v]) ++ [EvSleep ns]))).
      destruct (while n _ _ _) as [u w'|w'|msg w'|w']; try contradiction.
      * destruct IH as (vs & Hlog & Hvs). exists (v :: vs).
        cbn [log] in Hlog. rewrite Hlog. simpl. rewrite <- !app_assoc. simpl.
        split; [reflexivity|]. now constructor.
      * destruct IH as (vs & Hlog & Hvs & Hlen). exists (v :: vs).
        cbn [log] in Hlog. rewrite Hlog. simpl. rewrite <- !app_assoc. simpl.
        repeat split; [now constructor|now f_equal].
Qed.

(** The budget of a loop only bounds it: a loop that has ended within
    its budget ends the same way within any larger one. *)
Lemma while_more_fuel (cond : M (world D) bool) (body : M (world D) unit)
    (n m : nat) (w w' : world D) (u : unit) :
  while n cond body w = Done u w' -> (n <= m)%nat ->
  while m cond body w = Done u w'.
Proof.
  revert m w; induction n as [|n IH]; intros m w Hrun Hle; [discriminate|].
  destruct m as [|m]; [lia|]. cbn [while] in *. unfold bind in *.
  destruct (cond w) as [b w1| | |]; try discriminate.
  destruct b; [|exact Hrun].
  destruct (body w1) as [u1 w2| | |]; try discriminate.
  apply IH; [exact Hrun|lia].
Qed.

Lemma read_mmio_more_fuel (n m : nat) (addr v : Z) (w w' : world D) :
  MinusNw.read_mmio n addr w = Done v w' -> (n <= m)%nat ->
  MinusNw.read_mmio m addr w = Done v w'.
Proof.
  unfold MinusNw.read_mmio. intros Hrun Hle.
  apply bind_done in Hrun as (u1 & w1 & H1 & Hrun).
  apply bind_done in Hrun as (u2 & w2 & H2 & Hrun).
  apply bind_done in Hrun as (u3 & w3 & H3 & Hrun).
  apply bind_done in Hrun as (u4 & w4 & H4 & Hrun).
  unfold poll_csr in H4. apply (while_more_fuel _ _ n m) in H4; [|exact Hle].
  unfold bind at 1. rewrite H1. unfold bind at 1. rewrite H2.
  unfold bind at 1. rewrite H3. unfold bind at 1. unfold poll_csr. rewrite H4.
  exact Hrun.
Qed.

Lemma write_mmio_more_fuel (n m : nat) (addr data : Z) (w w' : world D) (u : unit) :
  MinusNw.write_mmio n addr data w = Done u w' -> (n <= m)%nat ->
  MinusNw.write_mmio m addr data w = Done u w'.
Proof.
  unfold MinusNw.write_mmio. intros Hrun Hle.
  apply bind_done in Hrun as (u1 & w1 & H1 & Hrun).
  apply bind_done in Hrun as (u2 & w2 & H2 & Hrun).
  apply bind_done in Hrun as (u3 & w3 & H3 & Hrun).
  unfold poll_csr in Hrun. apply (while_more_fuel _ _ n m) in Hrun; [|exact Hle].
  unfold bind at 1. rewrite H1. unfold bind at 1. rewrite H2.
  unfold bind at 1. rewrite H3. exact Hrun.
Qed.

(** The log of a proxied read. *)
Lemma read_mmio_log (fuel : nat) (addr : Z) (w : world D) :
  match MinusNw.read_mmio fuel addr w with
  | Done v w' =>
      exists vs,
        log w' = log w
          ++ [EvSetCSR 0 MinusNw.MMIO_READ_STATUS_REG;
              EvStore8 24 0; EvStore64 25 addr; EvStore64 33 0;
              EvSetCSR 1 MinusNw.MMIO_CTRL_REG]
          ++ polls MinusNw.MMIO_READ_STATUS_REG CLOCK_PERIOD_NS vs
          ++ [EvGetCSR MinusNw.MMIO_READ_STATUS_REG 1; EvLoad64 16 v] /\
        Forall (fun x => x <> 1) vs /\
        v = load64 (mem w') 16
  | Spin w' =>
      exists vs,
        log w' = log w
          ++ [EvSetCSR 0 MinusNw.MMIO_READ_STATUS_REG;
              EvStore8 24 0; EvStore64 25 addr; EvStore64 33 0;
              EvSetCSR 1 MinusNw.MMIO_CTRL_REG]
          ++ polls MinusNw.MMIO_READ_STATUS_REG CLOCK_PERIOD_NS vs /\
        Forall (fun x => x <> 1) vs /\
        length vs = fuel
  | _ => False
  end.
Proof.
  unfold MinusNw.read_mmio, MinusNw.read_request, MinusNw.read_response.
  unfold bind at 1. unfold setCSR at 1.
  destruct (dev_setCSR 0 _ (dev w) (mem w)) as [d1 m1].
  unfold bind at 1. unfold bind at 1. unfold vstore8 at 1. cbn [dev mem log].
  unfold bind at 1. unfold vstore64 at 1. cbn [dev mem log].
  unfold vstore64 at 1. cbn [dev mem log].
  unfold bind at 1. unfold setCSR at 1. cbn [dev mem log].
  destruct (dev_setCSR 1 _ d1 _) as [d2 m2].
  unfold bind at 1.
  match goal with
  | |- context [poll_csr fuel ?r ?n ?w0] =>
      pose proof (poll_csr_log fuel r n w0) as Hp;
      destruct (poll_csr fuel r n w0) as [u w3|w3|msg w3|w3]
  end; try contradiction.
  - destruct Hp as (vs & Hlog & Hvs). exists vs.
    unfold vload64. cbn [dev mem log] in *. rewrite Hlog.
    rewrite <- !app_assoc. simpl. auto.
  - destruct Hp as (vs & Hlog & Hvs & Hlen). exists vs.
    cbn [log] in *. rewrite Hlog. rewrite <- !app_assoc. simpl. auto.
Qed.

(** The same for a proxied write, which has nothing to fetch. *)
Lemma write_mmio_log (fuel : nat) (addr data : Z) (w : world D) :
  match MinusNw.write_mmio fuel addr data w with
  | Done _ w' =>
      exists vs,
        log w' = log w
          ++ [EvSetCSR 0 MinusNw.MMIO_WRITE_STATUS_REG;
              EvStore8 24 1; EvStore64 25 addr; EvStore64 33 0;
              EvStore64 41 data;
              EvSetCSR 1 MinusNw.MMIO_CTRL_REG]
          ++ polls MinusNw.MMIO_WRITE_STATUS_REG CLOCK_PERIOD_NS vs
          ++ [EvGetCSR MinusNw.MMIO_WRITE_STATUS_REG 1] /\
        Forall (fun x => x <> 1) vs
  | Spin w' =>
      exists vs,
        log w' = log w
          ++ [EvSetCSR 0 MinusNw.MMIO_WRITE_STATUS_REG;
              EvStore8 24 1; EvStore64 25 addr; EvStore64 33 0;
              EvStore64 41 data;
              EvSetCSR 1 MinusNw.MMIO_CTRL_REG]
          ++ polls MinusNw.MMIO_WRITE_STATUS_REG CLOCK_PERIOD_NS vs /\
        Forall (fun x => x <> 1) vs /\
        length vs = fuel
  | _ => False
  end.
Proof.
  unfold MinusNw.write_mmio, MinusNw.write_request.
  unfold bind at 1. unfold setCSR at 1.
  destruct (dev_setCSR 0 _ (dev w) (mem w)) as [d1 m1].
  unfold bind at 1. unfold bind at 1. unfold vstore8 at 1. cbn [dev mem log].
  unfold bind at 1. unfold vstore64 at 1. cbn [dev mem log].
  unfold bind at 1. unfold vstore64 at 1. cbn [dev mem log].
  unfold vstore64 at 1. cbn [dev mem log].
  unfold bind at 1. unfold setCSR at 1. cbn [dev mem log].
  destruct (dev_setCSR 1 _ d1 _) as [d2 m2].
  match goal with
  | |- context [poll_csr fuel ?r ?n ?w0] =>
      pose proof (poll_csr_log fuel r n w0) as Hp;
      destruct (poll_csr fuel r n w0) as [u w3|w3|msg w3|w3]
  end; try contradiction.
  - destruct Hp as (vs & Hlog & Hvs). exists vs.
    cbn [log] in *. rewrite Hlog. rewrite <- !app_assoc. simpl. auto.
  - destruct Hp as (vs & Hlog & Hvs & Hlen). exists vs.
    cbn [log] in *. rewrite Hlog. rewrite <- !app_assoc. simpl. auto.
Qed.

(** A register write always returns, and logs itself. *)
Lemma setCSR_done (val reg : Z) (w : world D) :
  setCSR val reg w = Done tt (final (setCSR val reg w)).
Proof. unfold setCSR. now destruct (dev_setCSR val reg (dev w) (mem w)). Qed.

Lemma setCSR_log (val reg : Z) (w w' : world D) :
  setCSR val reg w = Done tt w' -> log w' = log w ++ [EvSetCSR val reg].
Proof.
  unfold setCSR. destruct (dev_setCSR val reg (dev w) (mem w)).
  intros Hrun. now inversion Hrun.
Qed.

(** What storing a request does to the world. *)
Lemma read_request_world (addr : Z) (w1 w2 : world D) :
  MinusNw.read_request addr w1 = Done tt w2 ->
  dev w2 = dev w1 /\
  mem w2 = store64 (store64 (store8 (mem w1) 24 0) 25 addr) 33 0 /\
  log w2 = log w1 ++ [EvStore8 24 0; EvStore64 25 addr; EvStore64 33 0].
Proof.
  intros Hrun. inversion Hrun; subst w2; clear Hrun. cbn [dev mem log].
  now rewrite <- !app_assoc.
Qed.

Lemma write_request_world (addr data : Z) (w1 w2 : world D) :
  MinusNw.write_request addr data w1 = Done tt w2 ->
  dev w2 = dev w1 /\
  mem w2 = store64 (store64 (store64 (store8 (mem w1) 24 1) 25 addr) 33 0) 41 data /\
  log w2 = log w1
    ++ [EvStore8 24 1; EvStore64 25 addr; EvStore64 33 0; EvStore64 41 data].
Proof.
  intros Hrun. inversion Hrun; subst w2; clear Hrun. cbn [dev mem log].
  now rewrite <- !app_assoc.
Qed.

(** A proxied operation in stages: the completion register is cleared,
    the request is stored, the card is triggered on the buffer as the
    stores left it, and the rest of the call runs from the world the
    trigger leaves. *)
Lemma read_mmio_staged (fuel : nat) (addr : Z) (w : world D) :
  exists w1 w2 w3,
    setCSR 0 MinusNw.MMIO_READ_STATUS_REG w = Done tt w1 /\
    MinusNw.read_request addr w1 = Done tt w2 /\
    setCSR 1 MinusNw.MMIO_CTRL_REG w2 = Done tt w3 /\
    MinusNw.read_mmio fuel addr w
    = (poll_csr fuel MinusNw.MMIO_READ_STATUS_REG CLOCK_PERIOD_NS ;;
       MinusNw.read_response) w3.
Proof.
  pose proof (setCSR_done 0 MinusNw.MMIO_READ_STATUS_REG w) as H1.
  set (w1 := final (setCSR 0 MinusNw.MMIO_READ_STATUS_REG w)) in H1.
  assert (H2 : MinusNw.read_request addr w1
               = Done tt (final (MinusNw.read_request addr w1))) by reflexivity.
  set (w2 := final (MinusNw.read_request addr w1)) in H2.
  pose proof (setCSR_done 1 MinusNw.MMIO_CTRL_REG w2) as H3.
  exists w1, w2, (final (setCSR 1 MinusNw.MMIO_CTRL_REG w2)).
  split; [exact H1|]. split; [exact H2|]. split; [exact H3|].
  unfold MinusNw.read_mmio.
  rewrite (bind_step _ _ _ _ _ H1), (bind_step _ _ _ _ _ H2), (bind_step _ _ _ _ _ H3).
  reflexivity.
Qed.

Lemma write_mmio_staged (fuel : nat) (addr data : Z) (w : world D) :
  exists w1 w2 w3,
    setCSR 0 MinusNw.MMIO_WRITE_STATUS_REG w = Done tt w1 /\
    MinusNw.write_request addr data w1 = Done tt w2 /\
    setCSR 1 MinusNw.MMIO_CTRL_REG w2 = Done tt w3 /\
    MinusNw.write_mmio fuel addr data w
    = poll_csr fuel MinusNw.MMIO_WRITE_STATUS_REG CLOCK_PERIOD_NS w3.
Proof.
  pose proof (setCSR_done 0 MinusNw.MMIO_WRITE_STATUS_REG w) as H1.
  set (w1 := final (setCSR 0 MinusNw.MMIO_WRITE_STATUS_REG w)) in H1.
  assert (H2 : MinusNw.write_request addr data w1
               = Done tt (final (MinusNw.write_request addr data w1))) by reflexivity.
  set (w2 := final (MinusNw.write_request addr data w1)) in H2.
  pose proof (setCSR_done 1 MinusNw.MMIO_CTRL_REG w2) as H3.
  exists w1, w2, (final (setCSR 1 MinusNw.MMIO_CTRL_REG w2)).
  split; [exact H1|]. split; [exact H2|]. split; [exact H3|].
  unfold MinusNw.write_mmio.
  rewrite (bind_step _ _ _ _ _ H1), (bind_step _ _ _ _ _ H2), (bind_step _ _ _ _ _ H3).
  reflexivity.
Qed.
End Handshake.

Section Ordering.
Context {D : Type} `{Device D}.

(** C2.  A proxied read, on a buffer that holds the mailbox, does
    these things in this order.  (1) It writes 0 to the read-completion
    register.  (2) It stores the read request, after which the buffer
    holds opcode 0 in byte 24, the register address in the eight bytes
    at offset 25 and a length of 0 at offset 33.  (3) It writes 1 to
    the trigger register, and it is that buffer the card is handed with
    the trigger.  (4) It polls the read-completion register, sleeping
    after every reading other than 1, until it reads 1.  (5) It loads
    the eight bytes at offset 16 of the buffer as the card has left it
    and returns their value.  While the card has not answered, the call
    is at the polls of (4); it neither throws nor ends otherwise. *)
Theorem read_mmio_sequence (fuel : nat) (addr : Z) (w : world D) :
  (41 <= length (mem (final (setCSR 0 MinusNw.MMIO_READ_STATUS_REG w))))%nat ->
  0 <= addr < 2 ^ 64 ->
  exists w1 w2 w3,
    setCSR 0 MinusNw.MMIO_READ_STATUS_REG w = Done tt w1 /\
    MinusNw.read_request addr w1 = Done tt w2 /\
    mem w2 !! 24%nat = Some 0 /\
    load64 (mem w2) 25 = addr /\
    load64 (mem w2) 33 = 0 /\
    setCSR 1 MinusNw.MMIO_CTRL_REG w2 = Done tt w3 /\
    log w3 = log w
      ++ [EvSetCSR 0 MinusNw.MMIO_READ_STATUS_REG;
          EvStore8 24 0; EvStore64 25 addr; EvStore64 33 0;
          EvSetCSR 1 MinusNw.MMIO_CTRL_REG] /\
    match MinusNw.read_mmio fuel addr w with
    | Done v w' =>
        exists vs w4,
          poll_csr fuel MinusNw.MMIO_READ_STATUS_REG CLOCK_PERIOD_NS w3 = Done tt w4 /\
          log w4 = log w3
            ++ polls MinusNw.MMIO_READ_STATUS_REG CLOCK_PERIOD_NS vs
            ++ [EvGetCSR MinusNw.MMIO_READ_STATUS_REG 1] /\
          Forall (fun x => x <> 1) vs /\
          MinusNw.read_response w4 = Done v w' /\
          v = le_value (load_bytes (mem w4) 16 8) /\
          log w' = log w4 ++ [EvLoad64 16 v]
    | Spin w' =>
        exists vs,
          poll_csr fuel MinusNw.MMIO_READ_STATUS_REG CLOCK_PERIOD_NS w3 = Spin w' /\
          log w' = log w3
            ++ polls MinusNw.MMIO_READ_STATUS_REG CLOCK_PERIOD_NS vs /\
          Forall (fun x => x <> 1) vs /\
          length vs = fuel
    | _ => False
    end.
Proof.
  intros Hlen Haddr.
  destruct (read_mmio_staged fuel addr w) as (w1 & w2 & w3 & H1 & H2 & H3 & Hrun).
  rewrite H1 in Hlen. cbn [final] in Hlen.
  destruct (read_request_world addr w1 w2 H2) as (_ & Hm2 & Hl2).
  destruct (read_request_loads (mem w1) addr Hlen) as (Hop & _ & Ha & Hz & _).
  cbv zeta in Hop, Ha, Hz. rewrite <- Hm2 in Hop, Ha, Hz.
  rewrite wrap64_small in Ha by exact Haddr.
  exists w1, w2, w3.
  split; [exact H1|]. split; [exact H2|]. split; [exact Hop|].
  split; [exact Ha|]. split; [exact Hz|]. split; [exact H3|]. split.
  { rewrite (setCSR_log _ _ _ _ H3), Hl2, (setCSR_log _ _ _ _ H1).
    now rewrite <- !app_assoc. }
  rewrite Hrun. unfold bind at 1.
  pose proof (poll_csr_log fuel MinusNw.MMIO_READ_STATUS_REG CLOCK_PERIOD_NS w3) as Hp.
  destruct (poll_csr fuel MinusNw.MMIO_READ_STATUS_REG CLOCK_PERIOD_NS w3)
    as [[] w4|w4|msg w4|w4]; try contradiction.
  - destruct Hp as (vs & Hlog & Hvs). exists vs, w4.
    split; [reflexivity|]. split; [exact Hlog|]. split; [exact Hvs|].
    split; [reflexivity|]. split; reflexivity.
  - destruct Hp as (vs & Hlog & Hvs & Hn). exists vs.
    split; [reflexivity|]. split; [exact Hlog|]. split; assumption.
Qed.

(** C3.  In every proxied operation, write or read, on a buffer that
    holds the mailbox: when the host writes 1 to the trigger register
    the buffer already holds every field of the request (opcode,
    address, length and, for a write, the payload), the stores that put
    them there being the only accesses to the buffer so far; the card
    is handed that buffer with the trigger; and what the host does
    after the trigger, whether the call returns or is still waiting, is
    to poll (and, for a read, to fetch the response): it stores nothing
    more into the buffer and does not trigger again. *)
Theorem stores_before_trigger (fuel : nat) (addr data : Z) (w : world D) :
  (49 <= length (mem (final (setCSR 0 MinusNw.MMIO_WRITE_STATUS_REG w))))%nat ->
  (41 <= length (mem (final (setCSR 0 MinusNw.MMIO_READ_STATUS_REG w))))%nat ->
  0 <= addr < 2 ^ 64 ->
  0 <= data < 2 ^ 64 ->
  (exists wt wt' post,
     (setCSR 0 MinusNw.MMIO_WRITE_STATUS_REG ;; MinusNw.write_request addr data) w
     = Done tt wt /\
     mem wt !! 24%nat = Some 1 /\
     load64 (mem wt) 25 = addr /\
     load64 (mem wt) 33 = 0 /\
     load64 (mem wt) 41 = data /\
     log wt = log w
       ++ [EvSetCSR 0 MinusNw.MMIO_WRITE_STATUS_REG;
           EvStore8 24 1; EvStore64 25 addr; EvStore64 33 0; EvStore64 41 data] /\
     setCSR 1 MinusNw.MMIO_CTRL_REG wt = Done tt wt' /\
     MinusNw.write_mmio fuel addr data w
     = poll_csr fuel MinusNw.MMIO_WRITE_STATUS_REG CLOCK_PERIOD_NS wt' /\
     log (final (MinusNw.write_mmio fuel addr data w))
     = log wt ++ [EvSetCSR 1 MinusNw.MMIO_CTRL_REG] ++ post /\
     Forall quiet post) /\
  (exists wt wt' post,
     (setCSR 0 MinusNw.MMIO_READ_STATUS_REG ;; MinusNw.read_request addr) w
     = Done tt wt /\
     mem wt !! 24%nat = Some 0 /\
     load64 (mem wt) 25 = addr /\
     load64 (mem wt) 33 = 0 /\
     log wt = log w
       ++ [EvSetCSR 0 MinusNw.MMIO_READ_STATUS_REG;
           EvStore8 24 0; EvStore64 25 addr; EvStore64 33 0] /\
     setCSR 1 MinusNw.MMIO_CTRL_REG wt = Done tt wt' /\
     MinusNw.read_mmio fuel addr w
     = (poll_csr fuel MinusNw.MMIO_READ_STATUS_REG CLOCK_PERIOD_NS ;;
        MinusNw.read_response) wt' /\
     log (final (MinusNw.read_mmio fuel addr w))
     = log wt ++ [EvSetCSR 1 MinusNw.MMIO_CTRL_REG] ++ post /\
     Forall quiet post).
Proof.
  intros Hlw Hlr Haddr Hdata. split.
  - destruct (write_mmio_staged fuel addr data w)
      as (w1 & w2 & w3 & H1 & H2 & H3 & Hrun).
    rewrite H1 in Hlw. cbn [final] in Hlw.
    destruct (write_request_world addr data w1 w2 H2) as (_ & Hm2 & Hl2).
    destruct (write_request_loads (mem w1) addr data Hlw)
      as (Hop & _ & Ha & Hz & Hd & _).
    cbv zeta in Hop, Ha, Hz, Hd. rewrite <- Hm2 in Hop, Ha, Hz, Hd.
    rewrite wrap64_small in Ha by exact Haddr.
    rewrite wrap64_small in Hd by exact Hdata.
    assert (Hlt : log w2 = log w
              ++ [EvSetCSR 0 MinusNw.MMIO_WRITE_STATUS_REG;
                  EvStore8 24 1; EvStore64 25 addr; EvStore64 33 0;
                  EvStore64 41 data]).
    { rewrite Hl2, (setCSR_log _ _ _ _ H1). now rewrite <- !app_assoc. }
    pose proof (write_mmio_log fuel addr data w) as Hw.
    assert (Hpost : exists post,
              log (final (MinusNw.write_mmio fuel addr data w))
              = log w2 ++ [EvSetCSR 1 MinusNw.MMIO_CTRL_REG] ++ post /\
              Forall quiet post).
    { rewrite Hlt.
      destruct (MinusNw.write_mmio fuel addr data w) as [u w'|w'|msg w'|w'];
        try contradiction; cbn [final].
      - destruct Hw as (vs & Hlog & _). eexists. split.
        + rewrite Hlog. rewrite <- !app_assoc. reflexivity.
        + apply Forall_app. split; [apply polls_quiet|]. repeat constructor.
      - destruct Hw as (vs & Hlog & _). eexists. split.
        + rewrite Hlog. rewrite <- !app_assoc. reflexivity.
        + apply polls_quiet. }
    destruct Hpost as (post & Hlp & Hq).
    exists w2, w3, post.
    split; [now rewrite (bind_step _ _ _ _ _ H1)|].
    split; [exact Hop|]. split; [exact Ha|]. split; [exact Hz|].
    split; [exact Hd|]. split; [exact Hlt|]. split; [exact H3|].
    split; [exact Hrun|]. split; assumption.
  - destruct (read_mmio_staged fuel addr w)
      as (w1 & w2 & w3 & H1 & H2 & H3 & Hrun).
    rewrite H1 in Hlr. cbn [final] in Hlr.
    destruct (read_request_world addr w1 w2 H2) as (_ & Hm2 & Hl2).
    destruct (read_request_loads (mem w1) addr Hlr) as (Hop & _ & Ha & Hz & _).
    cbv zeta in Hop, Ha, Hz. rewrite <- Hm2 in Hop, Ha, Hz.
    rewrite wrap64_small in Ha by exact Haddr.
    assert (Hlt : log w2 = log w
              ++ [EvSetCSR 0 MinusNw.MMIO_READ_STATUS_REG;
                  EvStore8 24 0; EvStore64 25 addr; EvStore64 33 0]).
    { rewrite Hl2, (setCSR_log _ _ _ _ H1). now rewrite <- !app_assoc. }
    pose proof (read_mmio_log fuel addr w) as Hr.
    assert (Hpost : exists post,
              log (final (MinusNw.read_mmio fuel addr w))
              = log w2 ++ [EvSetCSR 1 MinusNw.MMIO_CTRL_REG] ++ post /\
              Forall quiet post).
    { rewrite Hlt.
      destruct (MinusNw.read_mmio fuel addr w) as [v w'|w'|msg w'|w'];
        try contradiction; cbn [final].
      - destruct Hr as (vs & Hlog & _). eexists. split.
        + rewrite Hlog. rewrite <- !app_assoc. reflexivity.
        + apply Forall_app. split; [apply polls_quiet|]. repeat constructor.
      - destruct Hr as (vs & Hlog & _). eexists. split.
        + rewrite Hlog. rewrite <- !app_assoc. reflexivity.
        + apply polls_quiet. }
    destruct Hpost as (post & Hlp & Hq).
    exists w2, w3, post.
    split; [now rewrite (bind_step _ _ _ _ _ H1)|].
    split; [exact Hop|]. split; [exact Ha|]. split; [exact Hz|].
    split; [exact Hlt|]. split; [exact H3|].
    split; [exact Hrun|]. split; assumption.
Qed.
End Ordering.

(** [read_mmio_sequence] for the length register, on a storage card of
    latency 2 that holds 1024 in it. *)
Lemma read_mmio_sequence_witness :
  exists w1 w2 w3,
    setCSR 0 MinusNw.MMIO_READ_STATUS_REG
      (Double.storage_world 2 {[MinusNw.DMA_LEN_REG := 1024]}) = Done tt w1 /\
    MinusNw.read_request 24 w1 = Done tt w2 /\
    mem w2 !! 24%nat = Some 0 /\
    load64 (mem w2) 25 = 24 /\
    load64 (mem w2) 33 = 0 /\
    setCSR 1 MinusNw.MMIO_CTRL_REG w2 = Done tt w3 /\
    log w3 = log (Double.storage_world 2 {[MinusNw.DMA_LEN_REG := 1024]})
      ++ [EvSetCSR 0 MinusNw.MMIO_READ_STATUS_REG;
          EvStore8 24 0; EvStore64 25 24; EvStore64 33 0;
          EvSetCSR 1 MinusNw.MMIO_CTRL_REG] /\
    match MinusNw.read_mmio 3 24
            (Double.storage_world 2 {[MinusNw.DMA_LEN_REG := 1024]}) with
    | Done v w' =>
        exists vs w4,
          poll_csr 3 MinusNw.MMIO_READ_STATUS_REG CLOCK_PERIOD_NS w3 = Done tt w4 /\
          log w4 = log w3
            ++ polls MinusNw.MMIO_READ_STATUS_REG CLOCK_PERIOD_NS vs
            ++ [EvGetCSR MinusNw.MMIO_READ_STATUS_REG 1] /\
          Forall (fun x => x <> 1) vs /\
          MinusNw.read_response w4 = Done v w' /\
          v = le_value (load_bytes (mem w4) 16 8) /\
          log w' = log w4 ++ [EvLoad64 16 v]
    | Spin w' =>
        exists vs,
          poll_csr 3 MinusNw.MMIO_READ_STATUS_REG CLOCK_PERIOD_NS w3 = Spin w' /\
          log w' = log w3
            ++ polls MinusNw.MMIO_READ_STATUS_REG CLOCK_PERIOD_NS vs /\
          Forall (fun x => x <> 1) vs /\
          length vs = 3%nat
    | _ => False
    end.
Proof.
  apply (read_mmio_sequence 3 24
           (Double.storage_world 2 {[MinusNw.DMA_LEN_REG := 1024]})).
  - apply Nat.leb_le. vm_compute. reflexivity.
  - lia.
Defined.

(** [stores_before_trigger] for the length register and the value
    1024, on a storage card of latency 2. *)
Lemma stores_before_trigger_witness :
  (exists wt wt' post,
     (setCSR 0 MinusNw.MMIO_WRITE_STATUS_REG ;; MinusNw.write_request 24 1024)
       (Double.storage_world 2 ∅)
     = Done tt wt /\
     mem wt !! 24%nat = Some 1 /\
     load64 (mem wt) 25 = 24 /\
     load64 (mem wt) 33 = 0 /\
     load64 (mem wt) 41 = 1024 /\
     log wt = log (Double.storage_world 2 ∅)
       ++ [EvSetCSR 0 MinusNw.MMIO_WRITE_STATUS_REG;
           EvStore8 24 1; EvStore64 25 24; EvStore64 33 0; EvStore64 41 1024] /\
     setCSR 1 MinusNw.MMIO_CTRL_REG wt = Done tt wt' /\
     MinusNw.write_mmio 3 24 1024 (Double.storage_world 2 ∅)
     = poll_csr 3 MinusNw.MMIO_WRITE_STATUS_REG CLOCK_PERIOD_NS wt' /\
     log (final (MinusNw.write_mmio 3 24 1024 (Double.storage_world 2 ∅)))
     = log wt ++ [EvSetCSR 1 MinusNw.MMIO_CTRL_REG] ++ post /\
     Forall quiet post) /\
  (exists wt wt' post,
     (setCSR 0 MinusNw.MMIO_READ_STATUS_REG ;; MinusNw.read_request 24)
       (Double.storage_world 2 ∅)
     = Done tt wt /\
     mem wt !! 24%nat = Some 0 /\
     load64 (mem wt) 25 = 24 /\
     load64 (mem wt) 33 = 0 /\
     log wt = log (Double.storage_world 2 ∅)
       ++ [EvSetCSR 0 MinusNw.MMIO_READ_STATUS_REG;
           EvStore8 24 0; EvStore64 25 24; EvStore64 33 0] /\
     setCSR 1 MinusNw.MMIO_CTRL_REG wt = Done tt wt' /\
     MinusNw.read_mmio 3 24 (Double.storage_world 2 ∅)
     = (poll_csr 3 MinusNw.MMIO_READ_STATUS_REG CLOCK_PERIOD_NS ;;
        MinusNw.read_response) wt' /\
     log (final (MinusNw.read_mmio 3 24 (Double.storage_world 2 ∅)))
     = log wt ++ [EvSetCSR 1 MinusNw.MMIO_CTRL_REG] ++ post /\
     Forall quiet post).
Proof.
  apply (stores_before_trigger 3 24 1024 (Double.storage_world 2 ∅)).
  - apply Nat.leb_le. vm_compute. reflexivity.
  - apply Nat.leb_le. vm_compute. reflexivity.
  - lia.
  - lia.
Defined.

(** ** The mailbox handshake against the double *)
Lemma card_poll (k : nat) :
  forall (fuel : nat) (c : Double.card) (m : region) (lg : list event) (reg ns : Z),
    Double.raising c = Some reg ->
    Double.delay c = k ->
    Double.csr c !! reg = Some 0 ->
    (k < fuel)%nat ->
    exists lg',
      poll_csr fuel reg ns (World c m lg)
      = Done tt (World (Double.Card (Double.regs c) (<[reg := 1]> (Double.csr c)) None O
                          (Double.latency c) (Double.on_write c)
                          (Double.buffer c) (Double.ctid c)) m lg').
Proof.
  induction k as [|k IH]; intros fuel c m lg reg ns Hr Hd Hc Hf;
    (destruct fuel as [|fuel]; [lia|]);
    unfold poll_csr; cbn [while]; unfold bind at 1; unfold bind at 1;
    unfold getCSR at 1; cbn [dev mem log dev_getCSR Double.card_device];
    unfold Double.card_getCSR; rewrite Hr, Hd;
    (destruct (decide (Some reg = Some reg)) as [_|Hne]; [|congruence]).
  - unfold ret. cbn [Z.eqb negb Pos.eqb]. eexists. reflexivity.
  - rewrite Hc. change (default 0 (Some 0)) with 0. unfold ret at 1. cbn [Z.eqb negb].
    unfold bind at 1. unfold sleep_for at 1.
    cbn [dev mem log dev_elapse Double.card_device].
    match goal with
    | |- context [while fuel _ _ ?w0] =>
        match w0 with
        | World ?c0 ?m0 ?l0 =>
            destruct (IH fuel c0 m0 l0 reg ns) as (lg' & Hrun);
              [reflexivity | reflexivity | exact Hc | lia |]
        end
    end.
    unfold poll_csr in Hrun. rewrite Hrun. eexists. reflexivity.
Qed.

Lemma card_setCSR_plain (val reg : Z) (c : Double.card) (m : region) :
  reg <> MinusNw.MMIO_CTRL_REG ->
  Double.card_setCSR val reg c m
  = (Double.Card (Double.regs c) (<[reg := val]> (Double.csr c)) (Double.raising c)
       (Double.delay c) (Double.latency c) (Double.on_write c)
       (Double.buffer c) (Double.ctid c), m).
Proof.
  intros Hne. unfold Double.card_setCSR.
  destruct (Z.eqb_spec reg MinusNw.MMIO_CTRL_REG); [contradiction|reflexivity].
Qed.

Lemma card_trigger_write (c : Double.card) (m : region) :
  load8 m 24 = 1 ->
  Double.card_setCSR 1 MinusNw.MMIO_CTRL_REG c m
  = (Double.Card (Double.on_write c (load64 m 25) (load64 m 41) (Double.regs c))
       (<[MinusNw.MMIO_CTRL_REG := 1]> (Double.csr c))
       (Some MinusNw.MMIO_WRITE_STATUS_REG) (Double.latency c) (Double.latency c)
       (Double.on_write c) (Double.buffer c) (Double.ctid c), m).
Proof.
  intros Hop. unfold Double.card_setCSR. rewrite Hop. reflexivity.
Qed.

Lemma card_trigger_read (c : Double.card) (m : region) :
  load8 m 24 = 0 ->
  Double.card_setCSR 1 MinusNw.MMIO_CTRL_REG c m
  = (Double.Card (Double.regs c)
       (<[MinusNw.MMIO_CTRL_REG := 1]> (Double.csr c))
       (Some MinusNw.MMIO_READ_STATUS_REG) (Double.latency c) (Double.latency c)
       (Double.on_write c) (Double.buffer c) (Double.ctid c),
     store64 m 16 (default 0 (Double.regs c !! load64 m 25))).
Proof.
  intros Hop. unfold Double.card_setCSR. rewrite Hop. reflexivity.
Qed.

Lemma card_write_mmio (c : Double.card) (m : region) (lg : list event)
    (fuel : nat) (R V : Z) :
  (Double.latency c < fuel)%nat ->
  (49 <= length m)%nat ->
  exists lg',
    MinusNw.write_mmio fuel R V (World c m lg)
    = Done tt
        (World
           (Double.Card (Double.on_write c (wrap64 R) (wrap64 V) (Double.regs c))
              (<[MinusNw.MMIO_WRITE_STATUS_REG := 1]>
                 (<[MinusNw.MMIO_CTRL_REG := 1]>
                    (<[MinusNw.MMIO_WRITE_STATUS_REG := 0]> (Double.csr c))))
              None O (Double.latency c) (Double.on_write c)
              (Double.buffer c) (Double.ctid c))
           (store64 (store64 (store64 (store8 m 24 1) 25 R) 33 0) 41 V)
           lg').
Proof.
  intros Hf Hlen.
  destruct (write_request_loads m R V Hlen) as (_ & Hop & Ha & _ & Hd & _).
  unfold MinusNw.write_mmio, MinusNw.write_request.
  unfold bind at 1. unfold setCSR at 1. cbn [dev mem log dev_setCSR Double.card_device].
  rewrite card_setCSR_plain by discriminate.
  unfold bind at 1. unfold bind at 1. unfold vstore8 at 1. cbn [dev mem log].
  unfold bind at 1. unfold vstore64 at 1. cbn [dev mem log].
  unfold bind at 1. unfold vstore64 at 1. cbn [dev mem log].
  unfold vstore64 at 1. cbn [dev mem log].
  unfold bind at 1. unfold setCSR at 1. cbn [dev mem log dev_setCSR Double.card_device].
  rewrite card_trigger_write by exact Hop. rewrite Ha, Hd.
  match goal with
  | |- context [poll_csr fuel ?r ?n (World ?c0 ?m0 ?l0)] =>
      destruct (card_poll (Double.latency c) fuel c0 m0 l0 r n) as (lg' & Hrun);
        [reflexivity | reflexivity | | exact Hf |]
  end.
  - cbn [Double.csr]. rewrite lookup_insert_ne by discriminate.
    apply lookup_insert_eq.
  - rewrite Hrun. eexists. reflexivity.
Qed.

Lemma card_read_mmio (c : Double.card) (m : region) (lg : list event)
    (fuel : nat) (R : Z) :
  (Double.latency c < fuel)%nat ->
  (41 <= length m)%nat ->
  exists lg',
    MinusNw.read_mmio fuel R (World c m lg)
    = Done (wrap64 (default 0 (Double.regs c !! wrap64 R)))
        (World
           (Double.Card (Double.regs c)
              (<[MinusNw.MMIO_READ_STATUS_REG := 1]>
                 (<[MinusNw.MMIO_CTRL_REG := 1]>
                    (<[MinusNw.MMIO_READ_STATUS_REG := 0]> (Double.csr c))))
              None O (Double.latency c) (Double.on_write c)
              (Double.buffer c) (Double.ctid c))
           (store64 (store64 (store64 (store8 m 24 0) 25 R) 33 0) 16
              (default 0 (Double.regs c !! wrap64 R)))
           lg').
Proof.
  intros Hf Hlen.
  destruct (read_request_loads m R Hlen) as (_ & Hop & Ha & _ & Hl).
  unfold MinusNw.read_mmio, MinusNw.read_request, MinusNw.read_response.
  unfold bind at 1. unfold setCSR at 1. cbn [dev mem log dev_setCSR Double.card_device].
  rewrite card_setCSR_plain by discriminate.
  unfold bind at 1. unfold bind at 1. unfold vstore8 at 1. cbn [dev mem log].
  unfold bind at 1. unfold vstore64 at 1. cbn [dev mem log].
  unfold vstore64 at 1. cbn [dev mem log].
  unfold bind at 1. unfold setCSR at 1. cbn [dev mem log dev_setCSR Double.card_device].
  rewrite card_trigger_read by exact Hop. rewrite Ha.
  unfold bind at 1.
  match goal with
  | |- context [poll_csr fuel ?r ?n (World ?c0 ?m0 ?l0)] =>
      destruct (card_poll (Double.latency c) fuel c0 m0 l0 r n) as (lg' & Hrun);
        [reflexivity | reflexivity | | exact Hf |]
  end.
  - cbn [Double.csr]. rewrite lookup_insert_ne by discriminate.
    apply lookup_insert_eq.
  - rewrite Hrun. unfold vload64. cbn [dev mem log Double.regs Double.csr
      Double.latency Double.on_write Double.buffer Double.ctid].
    rewrite load64_store64 by lia.
    eexists. reflexivity.
Qed.

(** C8.  Against a card that is pure storage, whatever its latency
    and whatever it held before, writing [V] to register [R] through
    the mailbox and then reading [R] through the mailbox returns [V]
    (both calls return once the budget of polls exceeds the latency). *)
Theorem write_then_read (c : Double.card) (m : region) (lg : list event)
    (fuel : nat) (R V : Z) :
  Double.on_write c = Double.storage ->
  (Double.latency c < fuel)%nat ->
  (49 <= length m)%nat ->
  0 <= R < 2 ^ 64 ->
  0 <= V < 2 ^ 64 ->
  exists w1 w2,
    MinusNw.write_mmio fuel R V (World c m lg) = Done tt w1 /\
    MinusNw.read_mmio fuel R w1 = Done V w2.
Proof.
  intros Hst Hf Hlen HR HV.
  destruct (card_write_mmio c m lg fuel R V Hf Hlen) as (lg1 & Hw).
  match type of Hw with
  | _ = Done tt (World ?c1 ?m1 ?l1) =>
      destruct (card_read_mmio c1 m1 l1 fuel R) as (lg2 & Hr);
        [exact Hf | rewrite !length_store64, length_store8; lia |]
  end.
  eexists. eexists. split; [exact Hw|].
  rewrite Hr. cbn [Double.regs]. rewrite Hst. unfold Double.storage.
  rewrite lookup_insert_eq. cbn [default from_option id].
  rewrite !(wrap64_small V) by assumption. reflexivity.
Qed.

(** ** Logs of whole runs *)

Lemma ops_app (a b : list event) (f : fields) :
  ops f (a ++ b) = ops f a ++ ops (after f a) b.
Proof.
  revert f; induction a as [|e r IH]; intros f; [reflexivity|].
  cbn [app ops]. rewrite IH. unfold after. cbn [fold_left].
  now rewrite <- app_assoc.
Qed.

Lemma after_app (a b : list event) (f : fields) :
  after f (a ++ b) = after (after f a) b.
Proof. unfold after. apply fold_left_app. Qed.

Lemma printed_app (a b : list event) : printed (a ++ b) = printed a ++ printed b.
Proof. apply omap_app. Qed.

Lemma digest_app (e1 e2 : list event) o1 a1 p1 o2 a2 p2 :
  digest e1 o1 a1 p1 -> digest e2 o2 a2 p2 ->
  digest (e1 ++ e2) (fun f => o1 f ++ o2 (a1 f)) (fun f => a2 (a1 f)) (p1 ++ p2).
Proof.
  intros [H1 P1] [H2 P2]. split.
  - intros f. destruct (H1 f) as [Ho1 Ha1]. destruct (H2 (a1 f)) as [Ho2 Ha2].
    rewrite ops_app, after_app, Ho1, Ha1, Ho2, Ha2. auto.
  - now rewrite printed_app, P1, P2.
Qed.

Lemma digest_eq (evs : list event) o a p o' a' p' :
  digest evs o a p ->
  (forall f, o f = o' f) -> (forall f, a f = a' f) -> p = p' ->
  digest evs o' a' p'.
Proof.
  intros [Hf Hp] Ho Ha Hpp. split; [|congruence].
  intros f. destruct (Hf f). rewrite <- Ho, <- Ha. auto.
Qed.

Lemma digest_nil : digest [] (fun _ => []) (fun f => f) [].
Proof. split; [intros f; split|]; reflexivity. Qed.

Lemma digest_cons (e : event) (evs : list event) o a p :
  digest evs o a p ->
  digest (e :: evs) (fun f => op_of f e ++ o (host_store f e))
    (fun f => a (host_store f e)) (printed [e] ++ p).
Proof.
  intros [Hf Hp]. split.
  - intros f. destruct (Hf (host_store f e)) as [Ho Ha].
    cbn [ops]. unfold after in *. cbn [fold_left]. rewrite Ho, Ha. auto.
  - change (e :: evs) with ([e] ++ evs). now rewrite printed_app, Hp.
Qed.

Ltac digest_list := repeat (eapply digest_cons); apply digest_nil.

Lemma digest_polls (reg ns : Z) (vs : list Z) :
  digest (polls reg ns vs) (fun _ => []) (fun f => f) [].
Proof.
  induction vs as [|v r IH]; [split; [intros f; split|]; reflexivity|].
  destruct IH as [IH1 IH2]. split.
  - intros f. destruct (IH1 f) as [Ho Ha]. cbn [polls flat_map app ops op_of].
    unfold after. cbn [fold_left host_store app]. split; assumption.
  - exact IH2.
Qed.

Section Specs.
Context {D : Type} `{Device D}.

Lemma spec_bind {A B} (m : M (world D) A) (k : A -> M (world D) B)
    (Q1 : A -> list event -> Prop) (Q2 : A -> B -> list event -> Prop) :
  spec m Q1 ->
  (forall a, spec (k a) (Q2 a)) ->
  spec (bind m k)
    (fun b evs => exists a e1 e2, evs = e1 ++ e2 /\ Q1 a e1 /\ Q2 a b e2).
Proof.
  intros Hm Hk w b w'' Hrun.
  apply bind_done in Hrun as (a & w' & Hma & Hka).
  apply Hm in Hma as (e1 & Hl1 & HQ1).
  apply Hk in Hka as (e2 & Hl2 & HQ2).
  exists (e1 ++ e2). split.
  - now rewrite Hl2, Hl1, app_assoc.
  - eauto 8.
Qed.

Lemma spec_conseq {A} (m : M (world D) A) (Q Q' : A -> list event -> Prop) :
  spec m Q -> (forall a evs, Q a evs -> Q' a evs) -> spec m Q'.
Proof.
  intros Hm HQ w a w' Hrun. apply Hm in Hrun as (evs & Hl & Hq). eauto.
Qed.

Lemma spec_setCSR (val reg : Z) :
  (reg =? MinusNw.MMIO_CTRL_REG) = false ->
  spec (setCSR val reg) (fun _ evs => digest evs (fun _ => []) (fun f => f) []).
Proof.
  intros Hreg w a w' Hrun. unfold setCSR in Hrun.
  destruct (dev_setCSR val reg (dev w) (mem w)) as [d m].
  inversion Hrun; subst. eexists. split; [reflexivity|].
  split; [|reflexivity]. intros f. cbn. rewrite Hreg, andb_false_r. auto.
Qed.

Lemma spec_getCSR (reg : Z) :
  spec (getCSR reg)
    (fun _ evs => digest evs (fun _ => []) (fun f => f) []).
Proof.
  intros w a w' Hrun. unfold getCSR in Hrun.
  destruct (dev_getCSR reg (dev w) (mem w)) as [v [d m]].
  inversion Hrun; subst. eexists. split; [reflexivity|].
  split; [|reflexivity]. intros f. auto.
Qed.

Lemma spec_getCtid :
  spec getCtid (fun _ evs => digest evs (fun _ => []) (fun f => f) []).
Proof.
  intros w a w' Hrun. inversion Hrun; subst. exists [].
  rewrite app_nil_r. split; [reflexivity|]. split; [|reflexivity]. intros f. auto.
Qed.

Lemma spec_print (line : list item) :
  spec (print line : M (world D) unit)
    (fun _ evs => digest evs (fun _ => []) (fun f => f) [line]).
Proof.
  intros w a w' Hrun. inversion Hrun; subst. eexists. split; [reflexivity|].
  split; [|reflexivity]. intros f. auto.
Qed.

Lemma spec_sleep_for (ns : Z) :
  spec (sleep_for ns)
    (fun _ evs => digest evs (fun _ => []) (fun f => f) []).
Proof.
  intros w a w' Hrun. unfold sleep_for in Hrun.
  destruct (dev_elapse ns (dev w) (mem w)) as [d m].
  inversion Hrun; subst. eexists. split; [reflexivity|].
  split; [|reflexivity]. intros f. auto.
Qed.

Lemma spec_read_mmio (fuel : nat) (addr : Z) :
  spec (MinusNw.read_mmio fuel addr)
    (fun v evs =>
       digest evs (fun _ => [Rd addr v])
         (fun f => Fields 0 addr (f_data f)) []).
Proof.
  intros w v w' Hrun. pose proof (read_mmio_log fuel addr w) as Hl.
  rewrite Hrun in Hl. destruct Hl as (vs & Hlog & _ & _).
  eexists. split; [exact Hlog|].
  eapply digest_eq.
  - eapply digest_app; [digest_list|].
    eapply digest_app; [apply digest_polls|digest_list].
  - reflexivity.
  - reflexivity.
  - reflexivity.
Qed.

Lemma spec_write_mmio (fuel : nat) (addr data : Z) :
  spec (MinusNw.write_mmio fuel addr data)
    (fun _ evs =>
       digest evs (fun _ => [Wr addr data]) (fun _ => Fields 1 addr data) []).
Proof.
  intros w u w' Hrun. pose proof (write_mmio_log fuel addr data w) as Hl.
  rewrite Hrun in Hl. destruct Hl as (vs & Hlog & _).
  eexists. split; [exact Hlog|].
  eapply digest_eq.
  - eapply digest_app; [digest_list|].
    eapply digest_app; [apply digest_polls|digest_list].
  - reflexivity.
  - reflexivity.
  - reflexivity.
Qed.

(** The wait for the engine ends on a reading with bit 0 set, after
    readings with bit 0 clear. *)
Lemma spec_poll_dma (fuel inner : nat) (count : Z) :
  spec (MinusNw.poll_dma fuel inner count)
    (fun _ evs =>
       exists waits vdone,
         digest evs
           (fun _ => map (Rd MinusNw.DMA_STATUS_REG) waits
                     ++ [Rd MinusNw.DMA_STATUS_REG vdone])
           (fun f => Fields 0 MinusNw.DMA_STATUS_REG (f_data f))
           (progress count waits) /\
         Forall (fun v => Z.land v 1 <> 1) waits /\
         Z.land vdone 1 = 1).
Proof.
  revert count. induction fuel as [|n IH]; intros count w st w' Hrun;
    [discriminate|].
  cbn [MinusNw.poll_dma] in Hrun.
  apply bind_done in Hrun as (r & w1 & Hread & Hrun).
  apply spec_read_mmio in Hread as (e1 & Hl1 & Hd1).
  destruct (Z.eqb_spec (Z.land r 1) 1) as [Hbit|Hbit]; cbn [negb] in Hrun.
  - inversion Hrun; subst. exists e1. split; [exact Hl1|].
    exists [], r. split; [|split; [constructor|assumption]].
    eapply digest_eq; [exact Hd1|reflexivity..].
  - apply bind_done in Hrun as (u1 & w2 & Hprint & Hrun).
    apply bind_done in Hrun as (u2 & w3 & Hovf & Hrun).
    apply bind_done in Hrun as (u3 & w4 & Hsleep & Hrun).
    apply IH in Hrun as (e5 & Hl5 & waits & vdone & Hd5 & Hw & Hdone).
    apply spec_sleep_for in Hsleep as (e4 & Hl4 & Hd4).
    assert (Hl3 : w3 = w2).
    { destruct (count <? MinusNw.INT_MAX); [now inversion Hovf|discriminate]. }
    subst w3.
    assert (Hp : exists e2, log w2 = log w1 ++ e2 /\
              digest e2 (fun _ => []) (fun f => f)
                (if Z.rem count 1000 =? 0
                 then [[Txt "Polling DMA status... count: "; Dec count;
                        Txt " val: "; Dec (Z.land r 1)]]
                 else [])).
    { destruct (Z.rem count 1000 =? 0).
      - apply spec_print in Hprint as (e2 & Hl2 & Hd2). eauto.
      - inversion Hprint; subst. exists []. rewrite app_nil_r.
        split; [reflexivity|apply digest_nil]. }
    destruct Hp as (e2 & Hl2 & Hd2).
    exists (e1 ++ e2 ++ e4 ++ e5). split.
    + rewrite Hl5, Hl4, Hl2, Hl1. now rewrite <- !app_assoc.
    + exists (r :: waits), vdone.
      split; [|split; [now constructor|assumption]].
      eapply digest_eq.
      * exact (digest_app _ _ _ _ _ _ _ _ Hd1
                 (digest_app _ _ _ _ _ _ _ _ Hd2
                    (digest_app _ _ _ _ _ _ _ _ Hd4 Hd5))).
      * reflexivity.
      * reflexivity.
      * reflexivity.
Qed.
End Specs.

Ltac spec_step :=
  first [ apply spec_getCtid
        | apply spec_setCSR; reflexivity
        | apply spec_getCSR
        | apply spec_print
        | apply spec_read_mmio
        | apply spec_write_mmio
        | apply spec_poll_dma ].

Ltac spec_steps := repeat (eapply spec_bind; [spec_step | intros]); spec_step.

Ltac split_all :=
  repeat match goal with
         | H : exists _, _ |- _ => destruct H
         | H : _ /\ _ |- _ => destruct H
         end.

Ltac digest_all := repeat (eapply digest_app; [eassumption|]); eassumption.

Section Runs.
Context {D : Type} `{Device D}.

(** A completed run of [benchmark_run], read off its log. *)
Lemma benchmark_run_log (fuel : nat) (mem_addr : Z) :
  spec (MinusNw.benchmark_run fuel mem_addr)
    (fun _ evs =>
       exists r, completed r /\
                 (forall f, ops f evs = scenario_ops mem_addr r) /\
                 printed evs = scenario_printed mem_addr r).
Proof.
  unfold MinusNw.benchmark_run. cbv zeta.
  eapply spec_conseq; [spec_steps|].
  intros u evs HQ. cbv beta in HQ. split_all. subst.
  match goal with
  | |- context [printed ?E] => eassert (Hall : digest E _ _ _) by digest_all
  end.
  destruct Hall as [Hf Hp].
  eexists (Readings _ _ _ _ _ _ _ _ _ _ _ _).
  split; [split; cbn [r_waits r_done]; eassumption|]. split.
  - intros f. destruct (Hf f) as [Ho _]. rewrite Ho.
    unfold scenario_ops. cbn [r_src r_dst r_tx_len r_status r_src_back
      r_len_back r_waits r_done r_status_after r_tx_len_after app].
    rewrite <- ?app_assoc. reflexivity.
  - rewrite Hp. unfold scenario_printed, scenario_preamble, scenario_report.
    cbn [r_src r_dst r_tx_len r_status r_src_back r_vaddr r_pid
      r_len_back r_waits r_done r_status_after r_tx_len_after app].
    rewrite <- ?app_assoc. reflexivity.
Qed.
End Runs.

Section BaselineRuns.
Context {D : Type} `{Device D}.

Lemma for_each_print_byte (l : list nat) (w : world D) :
  for_each l Baseline.print_byte w
  = Done tt (World (dev w) (mem w)
               (log w ++ map (fun i : nat => EvPrint [Hex (mem w !!! i); Txt " "]) l)).
Proof.
  revert w; induction l as [|i r IH]; intros w.
  - cbn. rewrite app_nil_r. now destruct w.
  - cbn [for_each foldr map]. unfold bind at 1.
    unfold Baseline.print_byte at 1, print, emit.
    change (foldr (fun a k => bind (Baseline.print_byte a) (fun _ => k)) (ret tt) r)
      with (for_each r (@Baseline.print_byte D)).
    rewrite IH. cbn [dev mem log]. now rewrite <- app_assoc.
Qed.

(** The log of a run of the baseline, with the thread identifier that
    goes to the PID register: the one the thread reports after the
    three registers of the transfer have been written. *)
Lemma baseline_run_trace (fuel : nat) (mem_addr : Z) (w : world D) :
  exists w3,
    (setCSR mem_addr Baseline.DMA_SRC_ADDR_REG ;;
     setCSR mem_addr Baseline.DMA_DST_ADDR_REG ;;
     setCSR 32768 Baseline.DMA_LEN_REG) w = Done tt w3 /\
    match Baseline.benchmark_run fuel mem_addr w with
    | Done _ w' =>
        exists vs st cmd tx,
          log w' = log w
            ++ [EvSetCSR mem_addr Baseline.DMA_SRC_ADDR_REG;
                EvSetCSR mem_addr Baseline.DMA_DST_ADDR_REG;
                EvSetCSR 32768 Baseline.DMA_LEN_REG;
                EvSetCSR (wrap64 (dev_getCtid (dev w3))) Baseline.COYOTE_PID_REG;
                EvSetCSR 3 Baseline.DMA_CMD_REG]
            ++ polls Baseline.DMA_STATUS_REG CLOCK_PERIOD_NS vs
            ++ [EvGetCSR Baseline.DMA_STATUS_REG 1;
                EvGetCSR Baseline.DMA_STATUS_REG st;
                EvPrint [Txt "DMA_STATUS_REG: "; Dec st];
                EvGetCSR Baseline.DMA_CMD_REG cmd;
                EvPrint [Txt "DMA_CMD_REG: "; Dec cmd];
                EvGetCSR Baseline.COYOTE_DMA_TX_LEN_REG tx;
                EvPrint [Txt "COYOTE_DMA_TX_LEN_REG: "; Dec tx]]
            ++ dump (mem w') /\
          Forall (fun v => v <> 1) vs
    | Spin w' =>
        exists vs,
          log w' = log w
            ++ [EvSetCSR mem_addr Baseline.DMA_SRC_ADDR_REG;
                EvSetCSR mem_addr Baseline.DMA_DST_ADDR_REG;
                EvSetCSR 32768 Baseline.DMA_LEN_REG;
                EvSetCSR (wrap64 (dev_getCtid (dev w3))) Baseline.COYOTE_PID_REG;
                EvSetCSR 3 Baseline.DMA_CMD_REG]
            ++ polls Baseline.DMA_STATUS_REG CLOCK_PERIOD_NS vs /\
          Forall (fun v => v <> 1) vs /\
          length vs = fuel
    | _ => False
    end.
Proof.
  pose proof (setCSR_done mem_addr Baseline.DMA_SRC_ADDR_REG w) as H1.
  set (w1 := final (setCSR mem_addr Baseline.DMA_SRC_ADDR_REG w)) in H1.
  pose proof (setCSR_done mem_addr Baseline.DMA_DST_ADDR_REG w1) as H2.
  set (w2 := final (setCSR mem_addr Baseline.DMA_DST_ADDR_REG w1)) in H2.
  pose proof (setCSR_done 32768 Baseline.DMA_LEN_REG w2) as H3.
  set (w3 := final (setCSR 32768 Baseline.DMA_LEN_REG w2)) in H3.
  pose proof (setCSR_done (wrap64 (dev_getCtid (dev w3))) Baseline.COYOTE_PID_REG w3)
    as H4.
  set (w4 := final (setCSR (wrap64 (dev_getCtid (dev w3))) Baseline.COYOTE_PID_REG w3))
    in H4.
  pose proof (setCSR_done 3 Baseline.DMA_CMD_REG w4) as H5.
  set (w5 := final (setCSR 3 Baseline.DMA_CMD_REG w4)) in H5.
  assert (Hl5 : log w5 = log w
            ++ [EvSetCSR mem_addr Baseline.DMA_SRC_ADDR_REG;
                EvSetCSR mem_addr Baseline.DMA_DST_ADDR_REG;
                EvSetCSR 32768 Baseline.DMA_LEN_REG;
                EvSetCSR (wrap64 (dev_getCtid (dev w3))) Baseline.COYOTE_PID_REG;
                EvSetCSR 3 Baseline.DMA_CMD_REG]).
  { rewrite (setCSR_log _ _ _ _ H5), (setCSR_log _ _ _ _ H4),
      (setCSR_log _ _ _ _ H3), (setCSR_log _ _ _ _ H2), (setCSR_log _ _ _ _ H1).
    now rewrite <- !app_assoc. }
  exists w3. split.
  { now rewrite (bind_step _ _ _ _ _ H1), (bind_step _ _ _ _ _ H2). }
  unfold Baseline.benchmark_run.
  rewrite (bind_step _ _ _ _ _ H1), (bind_step _ _ _ _ _ H2), (bind_step _ _ _ _ _ H3).
  rewrite (bind_step getCtid _ w3 w3 (dev_getCtid (dev w3)) eq_refl).
  rewrite (bind_step _ _ _ _ _ H4), (bind_step _ _ _ _ _ H5).
  clearbody w5. clear H1 H2 H3 H4 H5.
  unfold bind at 1.
  pose proof (poll_csr_log fuel Baseline.DMA_STATUS_REG CLOCK_PERIOD_NS w5) as Hp.
  destruct (poll_csr fuel Baseline.DMA_STATUS_REG CLOCK_PERIOD_NS w5)
    as [u w6|w6|msg w6|w6]; try contradiction.
  - destruct Hp as (vs & Hlog & Hvs).
    unfold bind at 1. unfold getCSR at 1.
    destruct (dev_getCSR _ (dev w6) (mem w6)) as [st [d7 m7]].
    unfold bind at 1. unfold print at 1, emit at 1. cbn [dev mem log].
    unfold bind at 1. unfold getCSR at 1. cbn [dev mem log].
    destruct (dev_getCSR _ d7 m7) as [cmd [d8 m8]].
    unfold bind at 1. unfold print at 1, emit at 1. cbn [dev mem log].
    unfold bind at 1. unfold getCSR at 1. cbn [dev mem log].
    destruct (dev_getCSR _ d8 m8) as [tx [d9 m9]].
    unfold bind at 1. unfold print at 1, emit at 1. cbn [dev mem log].
    rewrite for_each_print_byte. cbn [dev mem log] in *.
    exists vs, st, cmd, tx.
    rewrite Hlog, Hl5. split; [|exact Hvs].
    rewrite <- !app_assoc. reflexivity.
  - destruct Hp as (vs & Hlog & Hvs & Hlen).
    exists vs. rewrite Hlog, Hl5.
    rewrite <- !app_assoc. auto.
Qed.

(** The log of a run of the baseline, returned or still waiting. *)
Lemma baseline_run_log (fuel : nat) (mem_addr : Z) (w : world D) :
  match Baseline.benchmark_run fuel mem_addr w with
  | Done _ w' =>
      exists ctid vs st cmd tx,
        log w' = log w
          ++ [EvSetCSR mem_addr Baseline.DMA_SRC_ADDR_REG;
              EvSetCSR mem_addr Baseline.DMA_DST_ADDR_REG;
              EvSetCSR 32768 Baseline.DMA_LEN_REG;
              EvSetCSR ctid Baseline.COYOTE_PID_REG;
              EvSetCSR 3 Baseline.DMA_CMD_REG]
          ++ polls Baseline.DMA_STATUS_REG CLOCK_PERIOD_NS vs
          ++ [EvGetCSR Baseline.DMA_STATUS_REG 1;
              EvGetCSR Baseline.DMA_STATUS_REG st;
              EvPrint [Txt "DMA_STATUS_REG: "; Dec st];
              EvGetCSR Baseline.DMA_CMD_REG cmd;
              EvPrint [Txt "DMA_CMD_REG: "; Dec cmd];
              EvGetCSR Baseline.COYOTE_DMA_TX_LEN_REG tx;
              EvPrint [Txt "COYOTE_DMA_TX_LEN_REG: "; Dec tx]]
          ++ dump (mem w') /\
        Forall (fun v => v <> 1) vs
  | Spin w' =>
      exists ctid vs,
        log w' = log w
          ++ [EvSetCSR mem_addr Baseline.DMA_SRC_ADDR_REG;
              EvSetCSR mem_addr Baseline.DMA_DST_ADDR_REG;
              EvSetCSR 32768 Baseline.DMA_LEN_REG;
              EvSetCSR ctid Baseline.COYOTE_PID_REG;
              EvSetCSR 3 Baseline.DMA_CMD_REG]
          ++ polls Baseline.DMA_STATUS_REG CLOCK_PERIOD_NS vs /\
        Forall (fun v => v <> 1) vs /\
        length vs = fuel
  | _ => False
  end.
Proof.
  destruct (baseline_run_trace fuel mem_addr w) as (w3 & _ & Ht).
  destruct (Baseline.benchmark_run fuel mem_addr w) as [u w'|w'|msg w'|w'];
    try contradiction.
  - destruct Ht as (vs & st & cmd & tx & Hlog & Hvs).
    exists (wrap64 (dev_getCtid (dev w3))), vs, st, cmd, tx. auto.
  - destruct Ht as (vs & Hlog & Hvs & Hlen).
    exists (wrap64 (dev_getCtid (dev w3))), vs. auto.
Qed.
End BaselineRuns.

(** ** How completion of a transfer is detected *)

Lemma land_1_testbit (v : Z) : (Z.land v 1 =? 1) = Z.testbit v 0.
Proof.
  rewrite Z.bit0_odd. change 1 with (Z.ones 1) at 1.
  rewrite Z.land_ones by lia. change (2 ^ 1) with 2.
  rewrite Zodd_mod. reflexivity.
Qed.

Section Completion.
Context {D : Type} {HD : Device D} {D' : Type} {HD' : Device D'}.

End Completion.



(** The status register as that indirect run saw it: three readings
    of 0 made it wait, the reading of 3 ended the wait. *)
Lemma status_3_ends_the_indirect_wait :
  ops (Fields 0 0 0)
    (log (final (MinusNw.benchmark_run 5 65536 (Double.slow_world ∅ 3000 3))))
  = [Rd MinusNw.DMA_SRC_ADDR_REG 0; Rd MinusNw.DMA_DST_ADDR_REG 0;
     Rd MinusNw.DMA_TX_LEN_REG 0; Rd MinusNw.DMA_STATUS_REG 0;
     Wr MinusNw.DMA_SRC_ADDR_REG (65536 + 4096);
     Rd MinusNw.DMA_SRC_ADDR_REG (65536 + 4096);
     Wr MinusNw.DMA_LEN_REG 1024; Rd MinusNw.DMA_LEN_REG 1024;
     Wr MinusNw.DMA_CMD_REG 1;
     Rd MinusNw.DMA_STATUS_REG 0; Rd MinusNw.DMA_STATUS_REG 0;
     Rd MinusNw.DMA_STATUS_REG 0; Rd MinusNw.DMA_STATUS_REG 3;
     Rd MinusNw.DMA_STATUS_REG 3;
     Wr MinusNw.DMA_STATUS_REG 0; Rd MinusNw.DMA_TX_LEN_REG 0].
Proof. vm_compute. reflexivity. Qed.

(** ** After the transfer *)

Lemma csr_writes_app (a b : list event) :
  csr_writes (a ++ b) = csr_writes a ++ csr_writes b.
Proof. apply omap_app. Qed.

Lemma csr_writes_polls (reg ns : Z) (vs : list Z) : csr_writes (polls reg ns vs) = [].
Proof. induction vs as [|v r IH]; [reflexivity|exact IH]. Qed.

Lemma csr_writes_prints (l : list nat) (m : region) :
  csr_writes (map (fun i : nat => EvPrint [Hex (m !!! i); Txt " "]) l) = [].
Proof. induction l as [|i r IH]; [reflexivity|exact IH]. Qed.

Section AfterTransfer.
Context {D : Type} {HD : Device D} {D' : Type} {HD' : Device D'}.

(** C5, as the programs have it.  In a run of the indirect variant
    that returns, the reading of the DMA status register that showed
    completion is followed, before the run ends, by a write of 0 to
    that register through the mailbox.  The baseline variant writes
    five registers, the DMA status register not among them, whether it
    returns or waits on. *)
Theorem status_cleared_after_completion (fuel : nat) (mem_addr : Z)
    (w w' : world D) (wb : world D') :
  MinusNw.benchmark_run fuel mem_addr w = Done tt w' ->
  (exists evs before r,
     log w' = log w ++ evs /\
     Z.land (r_done r) 1 = 1 /\
     forall f,
       ops f evs
       = before
           ++ [Rd MinusNw.DMA_STATUS_REG (r_done r);
               Rd MinusNw.DMA_STATUS_REG (r_status_after r);
               Wr MinusNw.DMA_STATUS_REG 0;
               Rd MinusNw.DMA_TX_LEN_REG (r_tx_len_after r)]) /\
  (exists evs ctid,
     log (final (Baseline.benchmark_run fuel mem_addr wb)) = log wb ++ evs /\
     csr_writes evs
     = [(Baseline.DMA_SRC_ADDR_REG, mem_addr);
        (Baseline.DMA_DST_ADDR_REG, mem_addr);
        (Baseline.DMA_LEN_REG, 32768);
        (Baseline.COYOTE_PID_REG, ctid);
        (Baseline.DMA_CMD_REG, 3)]).
Proof.
  intros Hrun. split.
  - apply benchmark_run_log in Hrun as (evs & Hlog & r & [_ Hdone] & Hops & _).
    exists evs.
    exists ([Rd MinusNw.DMA_SRC_ADDR_REG (r_src r);
             Rd MinusNw.DMA_DST_ADDR_REG (r_dst r);
             Rd MinusNw.DMA_TX_LEN_REG (r_tx_len r);
             Rd MinusNw.DMA_STATUS_REG (r_status r);
             Wr MinusNw.DMA_SRC_ADDR_REG (wrap64 (mem_addr + 4096));
             Rd MinusNw.DMA_SRC_ADDR_REG (r_src_back r);
             Wr MinusNw.DMA_LEN_REG 1024;
             Rd MinusNw.DMA_LEN_REG (r_len_back r);
             Wr MinusNw.DMA_CMD_REG 1]
            ++ map (Rd MinusNw.DMA_STATUS_REG) (r_waits r)).
    exists r. split; [exact Hlog|]. split; [exact Hdone|].
    intros f. rewrite Hops. unfold scenario_ops.
    rewrite <- app_assoc. reflexivity.
  - pose proof (baseline_run_log fuel mem_addr wb) as Hb.
    destruct (Baseline.benchmark_run fuel mem_addr wb) as [u wb'|wb'|msg wb'|wb'];
      try contradiction; cbn [final].
    + destruct Hb as (ctid & vs & st & cmd & tx & Hlog & _).
      eexists. exists ctid. split; [exact Hlog|].
      rewrite !csr_writes_app, csr_writes_polls. unfold dump.
      rewrite csr_writes_prints. reflexivity.
    + destruct Hb as (ctid & vs & Hlog & _).
      eexists. exists ctid. split; [exact Hlog|].
      rewrite !csr_writes_app, csr_writes_polls. reflexivity.
Qed.

End AfterTransfer.

(** ** The programs from [main] on *)

Section Mains.
Context {D : Type} {HD : Device D}.

(** Both Jigsaw programs stop on a failed allocation, with the card
    untouched. *)
Lemma minus_nw_alloc_failure (fuel : nat) (w : world D) (m : region) (d : D) :
  dev_getMem (16 * 1024) (dev w) = (0, m, d) ->
  MinusNw.main fuel w
  = Throw "Could not allocate memory; exiting..."
      (World d m (log w ++ [EvGetMem (16 * 1024) 0])).
Proof.
  intros Hget. unfold MinusNw.main, bind, getMem. rewrite Hget. reflexivity.
Qed.

Lemma baseline_alloc_failure (fuel : nat) (w : world D) (m : region) (d : D) :
  dev_getMem (4 * 1024 * 1024) (dev w) = (0, m, d) ->
  Baseline.main fuel w
  = Throw "Could not allocate memory; exiting..."
      (World d m (log w ++ [EvGetMem (4 * 1024 * 1024) 0])).
Proof.
  intros Hget. unfold Baseline.main, bind, getMem. rewrite Hget. reflexivity.
Qed.

(** C7, as the program has it.  The indirect variant allocates a
    16 KiB buffer and runs the transfer twice on it.  Each run programs
    the source-address register with the address of the buffer plus
    4096 and the length register with 1024, writes nothing to the
    destination-address register, starts the engine by writing 1 to
    the command register, reads the status register until bit 0 is
    set, and ends by reading the transferred-length register, whose
    value is whatever the card answers. *)
Theorem transfer_scenario (fuel : nat) (w w' : world D) (code : Z) :
  MinusNw.main fuel w = Done code w' ->
  exists base r1 r2 e1 e2,
    base <> 0 /\
    log w' = log w
      ++ [EvGetMem (16 * 1024) base;
          EvPrint [Txt "JIGSAW BASELINE"];
          EvPrint [Txt "=== RUN 1 ==="]]
      ++ e1
      ++ [EvPrint [Txt "=== RUN 2 ==="]]
      ++ e2 /\
    completed r1 /\ (forall f, ops f e1 = scenario_ops base r1) /\
    completed r2 /\ (forall f, ops f e2 = scenario_ops base r2).
Proof.
  intros Hrun. unfold MinusNw.main in Hrun.
  apply bind_done in Hrun as (base & w1 & Hget & Hrun).
  destruct (Z.eqb_spec base 0) as [|Hbase]; [discriminate|].
  apply bind_done in Hrun as (u1 & w2 & Hp1 & Hrun).
  apply bind_done in Hrun as (u2 & w3 & Hp2 & Hrun).
  apply bind_done in Hrun as (u3 & w4 & Hr1 & Hrun).
  apply bind_done in Hrun as (u4 & w5 & Hp3 & Hrun).
  apply bind_done in Hrun as (u5 & w6 & Hr2 & Hrun).
  inversion Hrun; subst code w6; clear Hrun.
  destruct u3, u5.
  apply benchmark_run_log in Hr1 as (e1 & Hl1 & r1 & Hc1 & Ho1 & _).
  apply benchmark_run_log in Hr2 as (e2 & Hl2 & r2 & Hc2 & Ho2 & _).
  exists base, r1, r2, e1, e2. split; [exact Hbase|].
  split; [|auto].
  unfold getMem in Hget. destruct (dev_getMem _ (dev w)) as [[p m] d].
  inversion Hget; subst. inversion Hp1; subst. inversion Hp2; subst.
  inversion Hp3; subst.
  rewrite Hl2. cbn [log]. rewrite Hl1. cbn [log].
  rewrite <- !app_assoc. reflexivity.
Qed.
End Mains.

(** The run on a card that moves what it is asked to: the buffer has
    16 KiB, 1024 bytes are asked for and 1024 are reported moved in
    both passes; no length of 4096 is programmed or read back, and the
    one address programmed goes to the source-address register. *)
Lemma scenario_moves_1024_bytes :
  exists w',
    MinusNw.main 3 (Double.boot_world 1 (fun len => len) 65536) = Done 0 w' /\
    firstn 1 (log w') = [EvGetMem 16384 65536] /\
    ops (Fields 0 0 0) (log w')
    = [Rd MinusNw.DMA_SRC_ADDR_REG 0; Rd MinusNw.DMA_DST_ADDR_REG 0;
       Rd MinusNw.DMA_TX_LEN_REG 0; Rd MinusNw.DMA_STATUS_REG 0;
       Wr MinusNw.DMA_SRC_ADDR_REG (65536 + 4096);
       Rd MinusNw.DMA_SRC_ADDR_REG (65536 + 4096);
       Wr MinusNw.DMA_LEN_REG 1024; Rd MinusNw.DMA_LEN_REG 1024;
       Wr MinusNw.DMA_CMD_REG 1;
       Rd MinusNw.DMA_STATUS_REG 1; Rd MinusNw.DMA_STATUS_REG 1;
       Wr MinusNw.DMA_STATUS_REG 0; Rd MinusNw.DMA_TX_LEN_REG 1024;
       Rd MinusNw.DMA_SRC_ADDR_REG (65536 + 4096); Rd MinusNw.DMA_DST_ADDR_REG 0;
       Rd MinusNw.DMA_TX_LEN_REG 1024; Rd MinusNw.DMA_STATUS_REG 0;
       Wr MinusNw.DMA_SRC_ADDR_REG (65536 + 4096);
       Rd MinusNw.DMA_SRC_ADDR_REG (65536 + 4096);
       Wr MinusNw.DMA_LEN_REG 1024; Rd MinusNw.DMA_LEN_REG 1024;
       Wr MinusNw.DMA_CMD_REG 1;
       Rd MinusNw.DMA_STATUS_REG 1; Rd MinusNw.DMA_STATUS_REG 1;
       Wr MinusNw.DMA_STATUS_REG 0; Rd MinusNw.DMA_TX_LEN_REG 1024] /\
    ~ In (Wr MinusNw.DMA_LEN_REG 4096) (ops (Fields 0 0 0) (log w')) /\
    ~ In (Rd MinusNw.DMA_TX_LEN_REG 4096) (ops (Fields 0 0 0) (log w')) /\
    ~ In (Wr MinusNw.DMA_SRC_ADDR_REG 65536) (ops (Fields 0 0 0) (log w')) /\
    ~ In (Wr MinusNw.DMA_DST_ADDR_REG (65536 + 4096)) (ops (Fields 0 0 0) (log w')).
Proof.
  eexists. split; [vm_compute; reflexivity|].
  split; [vm_compute; reflexivity|].
  split; [vm_compute; reflexivity|].
  repeat split; vm_compute; intuition discriminate.
Qed.

(** [transfer_scenario] at the run on the double. *)
Lemma transfer_scenario_witness :
  exists base r1 r2 e1 e2,
    base <> 0 /\
    log (final (MinusNw.main 3 (Double.boot_world 1 (fun len => len) 65536)))
    = log (Double.boot_world 1 (fun len => len) 65536)
      ++ [EvGetMem (16 * 1024) base;
          EvPrint [Txt "JIGSAW BASELINE"];
          EvPrint [Txt "=== RUN 1 ==="]]
      ++ e1
      ++ [EvPrint [Txt "=== RUN 2 ==="]]
      ++ e2 /\
    completed r1 /\ (forall f, ops f e1 = scenario_ops base r1) /\
    completed r2 /\ (forall f, ops f e2 = scenario_ops base r2).
Proof.
  apply (transfer_scenario 3 (Double.boot_world 1 (fun len => len) 65536)
           (final (MinusNw.main 3 (Double.boot_world 1 (fun len => len) 65536)))
           0).
  vm_compute. reflexivity.
Defined.

(** ** The properties at concrete runs *)

(** [mailbox_layout] on the zeroed 16 KiB buffer, for register 0x18 and
    value 1024. *)
Lemma mailbox_layout_witness :
  (exists w1,
     MinusNw.write_request 24 1024 (Double.storage_world 2 ∅) = Done tt w1 /\
     mem w1 !! 24%nat = Some 1 /\
     load64 (mem w1) 25 = 24 /\
     load64 (mem w1) 33 = 0 /\
     load64 (mem w1) 41 = 1024) /\
  (exists w2,
     MinusNw.read_request 24 (Double.storage_world 2 ∅) = Done tt w2 /\
     mem w2 !! 24%nat = Some 0 /\
     load64 (mem w2) 25 = 24 /\
     load64 (mem w2) 33 = 0) /\
  (exists w3,
     MinusNw.read_response (Double.storage_world 2 ∅)
     = Done (le_value (load_bytes (mem (Double.storage_world 2 ∅)) 16 8)) w3 /\
     mem w3 = mem (Double.storage_world 2 ∅)).
Proof.
  apply (mailbox_layout (Double.storage_world 2 ∅) 24 1024).
  - cbn [mem Double.storage_world]. rewrite repeat_length. lia.
  - lia.
  - lia.
Defined.

(** [write_then_read] for register 0x18 and value 1024, latency 2. *)
Lemma write_then_read_witness :
  exists w1 w2,
    MinusNw.write_mmio 3 24 1024 (Double.storage_world 2 ∅) = Done tt w1 /\
    MinusNw.read_mmio 3 24 w1 = Done 1024 w2.
Proof.
  apply (write_then_read (Double.fresh_card 2 Double.storage ∅ 65536)
           (repeat 0 (Z.to_nat (16 * 1024))) [] 3 24 1024).
  - reflexivity.
  - cbn. lia.
  - rewrite repeat_length. lia.
  - lia.
  - lia.
Defined.

(** The baseline returns with the status register still reading 1. *)
Lemma baseline_leaves_status_set :
  exists w',
    Baseline.benchmark_run 3 4096 (Double.direct_world 1 (fun len => len)) = Done tt w' /\
    csr_writes (log w')
    = [(Baseline.DMA_SRC_ADDR_REG, 4096);
       (Baseline.DMA_DST_ADDR_REG, 4096);
       (Baseline.DMA_LEN_REG, 32768);
       (Baseline.COYOTE_PID_REG, 7);
       (Baseline.DMA_CMD_REG, 3)] /\
    Double.d_regs (dev w') !! Baseline.DMA_STATUS_REG = Some 1.
Proof.
  eexists. split; [vm_compute; reflexivity|]. split; vm_compute; reflexivity.
Qed.

(** [status_cleared_after_completion] at the runs on the doubles. *)
Lemma status_cleared_after_completion_witness :
  (exists evs before r,
     log (final (MinusNw.benchmark_run 3 65536 (Double.engine_world 1 (fun len => len))))
     = log (Double.engine_world 1 (fun len => len)) ++ evs /\
     Z.land (r_done r) 1 = 1 /\
     forall f,
       ops f evs
       = before
           ++ [Rd MinusNw.DMA_STATUS_REG (r_done r);
               Rd MinusNw.DMA_STATUS_REG (r_status_after r);
               Wr MinusNw.DMA_STATUS_REG 0;
               Rd MinusNw.DMA_TX_LEN_REG (r_tx_len_after r)]) /\
  (exists evs ctid,
     log (final (Baseline.benchmark_run 3 65536 (Double.direct_world 1 (fun len => len))))
     = log (Double.direct_world 1 (fun len => len)) ++ evs /\
     csr_writes evs
     = [(Baseline.DMA_SRC_ADDR_REG, 65536);
        (Baseline.DMA_DST_ADDR_REG, 65536);
        (Baseline.DMA_LEN_REG, 32768);
        (Baseline.COYOTE_PID_REG, ctid);
        (Baseline.DMA_CMD_REG, 3)]).
Proof.
  apply (status_cleared_after_completion 3 65536
           (Double.engine_world 1 (fun len => len))
           (final (MinusNw.benchmark_run 3 65536 (Double.engine_world 1 (fun len => len))))
           (Double.direct_world 1 (fun len => len))).
  vm_compute. reflexivity.
Defined.



(** ** Allocation failure in the AES example *)

(** C9 fails in [aes_host_baseline]: the two buffers are used as
    they come.  With [--size 0] and allocations that return no memory
    the program programs the key registers, starts the transfer on the
    null buffer and reports success; with the default size it writes
    through the null pointer.  Neither run throws. *)
Theorem aes_runs_on_null_buffer :
  AesHost.main (AesHost.Cmdline (Some 0) None)
    (AesHost.World (Double.Process []) ∅ [])
  = Done 0
      (AesHost.World (Double.Process []) ∅
         [AesHost.CGetMem 0 0; AesHost.CGetMem 0 0;
          AesHost.CIoSwitch 0;
          AesHost.CSetCSR AesHost.keyLow 0;
          AesHost.CSetCSR AesHost.keyHigh 1;
          AesHost.CInvoke 0 0;
          AesHost.CPrint [Txt "Success: cipher text matches test vectors!"]]) /\
  AesHost.main (AesHost.Cmdline None None)
    (AesHost.World (Double.Process []) ∅ [])
  = Undefined
      (AesHost.World (Double.Process []) ∅
         [AesHost.CGetMem 1 0; AesHost.CGetMem 1 0]).
Proof.
  split; vm_compute; reflexivity.
Qed.

(** * Further properties of the programs *)

(** ** The mailbox codec, continued *)

Section CodecMore.
Context {D : Type} `{Device D}.

(** X1.  Encoding a write request touches the bytes 24 to 48 of the
    buffer only: every other byte, hence the response field at 16,
    keeps its value; the device is left alone and the log grows by the
    four stores. *)
Theorem write_request_frame (w : world D) (addr data : Z) :
  exists w',
    MinusNw.write_request addr data w = Done tt w' /\
    dev w' = dev w /\
    length (mem w') = length (mem w) /\
    (forall i : nat, (i < 24 \/ 49 <= i)%nat -> mem w' !! i = mem w !! i) /\
    load64 (mem w') 16 = load64 (mem w) 16 /\
    log w' = log w
      ++ [EvStore8 24 1; EvStore64 25 addr; EvStore64 33 0; EvStore64 41 data].
Proof.
  eexists. split; [reflexivity|]. cbn [dev mem log]. repeat split.
  - now rewrite !length_store64, length_store8.
  - intros i Hi.
    rewrite !lookup_store64_ne, lookup_store8_ne by lia. reflexivity.
  - now rewrite !load64_store64_ne, load64_store8_ne by lia.
  - now rewrite <- !app_assoc.
Qed.

(** X2.  A read request stored over a write request replaces the
    opcode and the address and leaves the payload of the write in
    place: the buffer then holds opcode 0, the address of the read and
    the stale payload. *)
Theorem read_request_keeps_stale_payload (w : world D) (addr data addr' : Z) :
  (49 <= length (mem w))%nat ->
  0 <= data < 2 ^ 64 ->
  0 <= addr' < 2 ^ 64 ->
  exists w1 w2,
    MinusNw.write_request addr data w = Done tt w1 /\
    MinusNw.read_request addr' w1 = Done tt w2 /\
    mem w2 !! 24%nat = Some 0 /\
    load64 (mem w2) 25 = addr' /\
    load64 (mem w2) 33 = 0 /\
    load64 (mem w2) 41 = data.
Proof.
  intros Hlen Hdata Haddr.
  eexists. eexists. split; [reflexivity|]. split; [reflexivity|].
  cbn [mem].
  destruct (write_request_loads (mem w) addr data Hlen)
    as (_ & _ & _ & _ & Hd & Hl).
  match goal with
  | |- context [store64 (store64 (store8 ?m1 24 0) 25 addr') 33 0] =>
      destruct (read_request_loads m1 addr' ltac:(cbv zeta in Hl; lia))
        as (Hop & _ & Ha & Hz & _)
  end.
  cbv zeta in *. repeat split; try assumption.
  - rewrite Ha. now apply wrap64_small.
  - rewrite !load64_store64_ne, load64_store8_ne by lia.
    rewrite Hd. now apply wrap64_small.
Qed.
End CodecMore.

Lemma read_request_keeps_stale_payload_witness :
  exists w1 w2,
    MinusNw.write_request 24 1024 (Double.storage_world 2 ∅) = Done tt w1 /\
    MinusNw.read_request 56 w1 = Done tt w2 /\
    mem w2 !! 24%nat = Some 0 /\
    load64 (mem w2) 25 = 56 /\
    load64 (mem w2) 33 = 0 /\
    load64 (mem w2) 41 = 1024.
Proof.
  apply (read_request_keeps_stale_payload (Double.storage_world 2 ∅) 24 1024 56).
  - cbn [mem Double.storage_world]. rewrite repeat_length. lia.
  - lia.
  - lia.
Defined.

(** ** The handshake of a write *)

Section WriteHandshake.
Context {D : Type} `{Device D}.

(** X3.  A proxied write, on a buffer that holds the mailbox, writes 0
    to the write-completion register, stores the request, after which
    the buffer holds opcode 1 in byte 24, the register address at
    offset 25, a length of 0 at offset 33 and the data at offset 41,
    writes 1 to the trigger register with the buffer in that state, and
    then polls the write-completion register, sleeping 4 ns after every
    reading other than 1, until it reads 1.  It loads nothing from the
    buffer.  While the card has not answered the call is at the
    polls. *)
Theorem write_mmio_sequence (fuel : nat) (addr data : Z) (w : world D) :
  (49 <= length (mem (final (setCSR 0 MinusNw.MMIO_WRITE_STATUS_REG w))))%nat ->
  0 <= addr < 2 ^ 64 ->
  0 <= data < 2 ^ 64 ->
  exists w1 w2 w3,
    setCSR 0 MinusNw.MMIO_WRITE_STATUS_REG w = Done tt w1 /\
    MinusNw.write_request addr data w1 = Done tt w2 /\
    mem w2 !! 24%nat = Some 1 /\
    load64 (mem w2) 25 = addr /\
    load64 (mem w2) 33 = 0 /\
    load64 (mem w2) 41 = data /\
    setCSR 1 MinusNw.MMIO_CTRL_REG w2 = Done tt w3 /\
    log w3 = log w
      ++ [EvSetCSR 0 MinusNw.MMIO_WRITE_STATUS_REG;
          EvStore8 24 1; EvStore64 25 addr; EvStore64 33 0; EvStore64 41 data;
          EvSetCSR 1 MinusNw.MMIO_CTRL_REG] /\
    match MinusNw.write_mmio fuel addr data w with
    | Done _ w' =>
        exists vs,
          poll_csr fuel MinusNw.MMIO_WRITE_STATUS_REG CLOCK_PERIOD_NS w3 = Done tt w' /\
          log w' = log w3
            ++ polls MinusNw.MMIO_WRITE_STATUS_REG CLOCK_PERIOD_NS vs
            ++ [EvGetCSR MinusNw.MMIO_WRITE_STATUS_REG 1] /\
          Forall (fun x => x <> 1) vs
    | Spin w' =>
        exists vs,
          poll_csr fuel MinusNw.MMIO_WRITE_STATUS_REG CLOCK_PERIOD_NS w3 = Spin w' /\
          log w' = log w3
            ++ polls MinusNw.MMIO_WRITE_STATUS_REG CLOCK_PERIOD_NS vs /\
          Forall (fun x => x <> 1) vs /\
          length vs = fuel
    | _ => False
    end.
Proof.
  intros Hlen Haddr Hdata.
  destruct (write_mmio_staged fuel addr data w)
    as (w1 & w2 & w3 & H1 & H2 & H3 & Hrun).
  rewrite H1 in Hlen. cbn [final] in Hlen.
  destruct (write_request_world addr data w1 w2 H2) as (_ & Hm2 & Hl2).
  destruct (write_request_loads (mem w1) addr data Hlen)
    as (Hop & _ & Ha & Hz & Hd & _).
  cbv zeta in Hop, Ha, Hz, Hd. rewrite <- Hm2 in Hop, Ha, Hz, Hd.
  rewrite wrap64_small in Ha by exact Haddr.
  rewrite wrap64_small in Hd by exact Hdata.
  exists w1, w2, w3.
  split; [exact H1|]. split; [exact H2|]. split; [exact Hop|].
  split; [exact Ha|]. split; [exact Hz|]. split; [exact Hd|].
  split; [exact H3|]. split.
  { rewrite (setCSR_log _ _ _ _ H3), Hl2, (setCSR_log _ _ _ _ H1).
    now rewrite <- !app_assoc. }
  rewrite Hrun.
  pose proof (poll_csr_log fuel MinusNw.MMIO_WRITE_STATUS_REG CLOCK_PERIOD_NS w3) as Hp.
  destruct (poll_csr fuel MinusNw.MMIO_WRITE_STATUS_REG CLOCK_PERIOD_NS w3)
    as [[] w4|w4|msg w4|w4]; try contradiction.
  - destruct Hp as (vs & Hlog & Hvs). exists vs. auto.
  - destruct Hp as (vs & Hlog & Hvs & Hn). exists vs. auto.
Qed.
End WriteHandshake.

(** [write_mmio_sequence] for the source-address register, on a storage
    card of latency 2. *)
Lemma write_mmio_sequence_witness :
  exists w1 w2 w3,
    setCSR 0 MinusNw.MMIO_WRITE_STATUS_REG (Double.storage_world 2 ∅) = Done tt w1 /\
    MinusNw.write_request 8 69632 w1 = Done tt w2 /\
    mem w2 !! 24%nat = Some 1 /\
    load64 (mem w2) 25 = 8 /\
    load64 (mem w2) 33 = 0 /\
    load64 (mem w2) 41 = 69632 /\
    setCSR 1 MinusNw.MMIO_CTRL_REG w2 = Done tt w3 /\
    log w3 = log (Double.storage_world 2 ∅)
      ++ [EvSetCSR 0 MinusNw.MMIO_WRITE_STATUS_REG;
          EvStore8 24 1; EvStore64 25 8; EvStore64 33 0; EvStore64 41 69632;
          EvSetCSR 1 MinusNw.MMIO_CTRL_REG] /\
    match MinusNw.write_mmio 3 8 69632 (Double.storage_world 2 ∅) with
    | Done _ w' =>
        exists vs,
          poll_csr 3 MinusNw.MMIO_WRITE_STATUS_REG CLOCK_PERIOD_NS w3 = Done tt w' /\
          log w' = log w3
            ++ polls MinusNw.MMIO_WRITE_STATUS_REG CLOCK_PERIOD_NS vs
            ++ [EvGetCSR MinusNw.MMIO_WRITE_STATUS_REG 1] /\
          Forall (fun x => x <> 1) vs
    | Spin w' =>
        exists vs,
          poll_csr 3 MinusNw.MMIO_WRITE_STATUS_REG CLOCK_PERIOD_NS w3 = Spin w' /\
          log w' = log w3
            ++ polls MinusNw.MMIO_WRITE_STATUS_REG CLOCK_PERIOD_NS vs /\
          Forall (fun x => x <> 1) vs /\
          length vs = 3%nat
    | _ => False
    end.
Proof.
  apply (write_mmio_sequence 3 8 69632 (Double.storage_world 2 ∅)).
  - apply Nat.leb_le. vm_compute. reflexivity.
  - lia.
  - lia.
Defined.

(** ** What a run can end in *)

Lemma steady_bind {W A B} (m : M W A) (k : A -> M W B) (w : W) :
  steady (m w) ->
  (forall a w', m w = Done a w' -> steady (k a w')) ->
  steady (bind m k w).
Proof.
  unfold bind. destruct (m w) as [a w'|w'|msg w'|w']; cbn; auto.
Qed.

Section Steady.
Context {D : Type} `{Device D}.

Lemma setCSR_steady (val reg : Z) (w : world D) : steady (setCSR val reg w).
Proof. unfold setCSR. now destruct (dev_setCSR val reg (dev w) (mem w)). Qed.

Lemma getCSR_steady (reg : Z) (w : world D) : steady (getCSR reg w).
Proof.
  unfold getCSR. now destruct (dev_getCSR reg (dev w) (mem w)) as [v [d m]].
Qed.

Lemma sleep_for_steady (ns : Z) (w : world D) : steady (sleep_for ns w).
Proof. unfold sleep_for. now destruct (dev_elapse ns (dev w) (mem w)). Qed.

Lemma poll_csr_steady (fuel : nat) (reg ns : Z) (w : world D) :
  steady (poll_csr fuel reg ns w).
Proof.
  pose proof (poll_csr_log fuel reg ns w) as Hl.
  now destruct (poll_csr fuel reg ns w).
Qed.

Lemma read_mmio_steady (fuel : nat) (addr : Z) (w : world D) :
  steady (MinusNw.read_mmio fuel addr w).
Proof.
  pose proof (read_mmio_log fuel addr w) as Hl.
  now destruct (MinusNw.read_mmio fuel addr w).
Qed.

Lemma write_mmio_steady (fuel : nat) (addr data : Z) (w : world D) :
  steady (MinusNw.write_mmio fuel addr data w).
Proof.
  pose proof (write_mmio_log fuel addr data w) as Hl.
  now destruct (MinusNw.write_mmio fuel addr data w).
Qed.

Lemma poll_dma_steady (fuel inner : nat) (count : Z) (w : world D) :
  count + Z.of_nat fuel <= MinusNw.INT_MAX ->
  steady (MinusNw.poll_dma fuel inner count w).
Proof.
  revert count w. induction fuel as [|n IH]; intros count w Hc; [exact I|].
  cbn [MinusNw.poll_dma]. apply steady_bind; [apply read_mmio_steady|].
  intros r w1 _. destruct (negb (Z.land r 1 =? 1)); [|exact I].
  apply steady_bind.
  { destruct (Z.rem count 1000 =? 0); exact I. }
  intros u1 w2 _. apply steady_bind.
  { destruct (Z.ltb_spec count MinusNw.INT_MAX); [exact I|lia]. }
  intros u2 w3 _. apply steady_bind; [apply sleep_for_steady|].
  intros u3 w4 _. apply IH. lia.
Qed.

Ltac steady_step :=
  first [ exact I | apply setCSR_steady | apply getCSR_steady
        | apply read_mmio_steady | apply write_mmio_steady ].

Lemma benchmark_run_steady (fuel : nat) (mem_addr : Z) (w : world D) :
  Z.of_nat fuel <= MinusNw.INT_MAX ->
  steady (MinusNw.benchmark_run fuel mem_addr w).
Proof.
  intros Hf. unfold MinusNw.benchmark_run. cbv zeta.
  repeat (apply steady_bind; [steady_step | intros]).
  apply steady_bind; [apply poll_dma_steady; lia | intros].
  repeat (apply steady_bind; [steady_step | intros]).
  steady_step.
Qed.

Lemma baseline_run_steady (fuel : nat) (mem_addr : Z) (w : world D) :
  steady (Baseline.benchmark_run fuel mem_addr w).
Proof.
  pose proof (baseline_run_log fuel mem_addr w) as Hl.
  now destruct (Baseline.benchmark_run fuel mem_addr w).
Qed.

(** X4.  The accesses to the mailbox are taken as an x86-64 host
    executes them (unaligned eight-byte stores and loads); [Undefined]
    stands for the one undefined operation the embedding follows, the
    increment of the [int polling_count] at [INT_MAX].  On that
    reading, and with fewer than 2^31 polls allowed to each loop, the
    indirect program throws exactly when the allocation returned a null
    pointer, with the allocation as its only interaction and the
    message of line 171; otherwise it is still polling, or it has
    returned [EXIT_SUCCESS].  No other exception is thrown and
    [polling_count] is never incremented at [INT_MAX]. *)
Theorem minus_nw_main_outcomes (fuel : nat) (w : world D) :
  Z.of_nat fuel <= MinusNw.INT_MAX ->
  match MinusNw.main fuel w with
  | Done code w' =>
      code = EXIT_SUCCESS /\ fst (fst (dev_getMem (16 * 1024) (dev w))) <> 0
  | Spin w' => fst (fst (dev_getMem (16 * 1024) (dev w))) <> 0
  | Throw msg w' =>
      msg = "Could not allocate memory; exiting..."%string /\
      fst (fst (dev_getMem (16 * 1024) (dev w))) = 0 /\
      log w' = log w ++ [EvGetMem (16 * 1024) 0]
  | Undefined w' => False
  end.
Proof.
  intros Hf. unfold MinusNw.main. unfold bind at 1. unfold getMem.
  destruct (dev_getMem (16 * 1024) (dev w)) as [[p m] d]. cbn [fst].
  destruct (Z.eqb_spec p 0) as [->|Hp]; [cbn; auto|].
  match goal with
  | |- match ?R with _ => _ end =>
      assert (Hs : steady R);
      [| assert (Hc : forall code w', R = Done code w' -> code = EXIT_SUCCESS);
         [| destruct R as [code w'|w'|msg w'|w']; cbn in Hs; try contradiction;
            [split; [eapply Hc; reflexivity|exact Hp] | exact Hp]]]
  end.
  - unfold MinusNw.run_bench.
    repeat (apply steady_bind;
            [first [steady_step | apply benchmark_run_steady; exact Hf] | intros]).
    exact I.
  - intros code w' Hrun.
    apply bind_done in Hrun as (u1 & w2 & _ & Hrun).
    apply bind_done in Hrun as (u2 & w3 & _ & Hrun).
    apply bind_done in Hrun as (u3 & w4 & _ & Hrun).
    apply bind_done in Hrun as (u4 & w5 & _ & Hrun).
    apply bind_done in Hrun as (u5 & w6 & _ & Hrun).
    now inversion Hrun.
Qed.

(** X5.  The baseline program ends in one of three ways only,
    whatever the number of polls.  It throws exactly when the
    allocation returned a null pointer, with the allocation as its only
    interaction; otherwise it is still polling the DMA status register,
    or it returns [EXIT_SUCCESS]. *)
Theorem baseline_main_outcomes (fuel : nat) (w : world D) :
  match Baseline.main fuel w with
  | Done code w' =>
      code = EXIT_SUCCESS /\
      fst (fst (dev_getMem (4 * 1024 * 1024) (dev w))) <> 0
  | Spin w' => fst (fst (dev_getMem (4 * 1024 * 1024) (dev w))) <> 0
  | Throw msg w' =>
      msg = "Could not allocate memory; exiting..."%string /\
      fst (fst (dev_getMem (4 * 1024 * 1024) (dev w))) = 0 /\
      log w' = log w ++ [EvGetMem (4 * 1024 * 1024) 0]
  | Undefined w' => False
  end.
Proof.
  unfold Baseline.main. unfold bind at 1. unfold getMem.
  destruct (dev_getMem (4 * 1024 * 1024) (dev w)) as [[p m] d]. cbn [fst].
  destruct (Z.eqb_spec p 0) as [->|Hp]; [cbn; auto|].
  match goal with
  | |- match ?R with _ => _ end =>
      assert (Hs : steady R);
      [| assert (Hc : forall code w', R = Done code w' -> code = EXIT_SUCCESS);
         [| destruct R as [code w'|w'|msg w'|w']; cbn in Hs; try contradiction;
            [split; [eapply Hc; reflexivity|exact Hp] | exact Hp]]]
  end.
  - unfold Baseline.run_bench.
    repeat (apply steady_bind;
            [first [steady_step | apply baseline_run_steady] | intros]).
    exact I.
  - intros code w' Hrun.
    apply bind_done in Hrun as (u1 & w2 & _ & Hrun).
    apply bind_done in Hrun as (u2 & w3 & _ & Hrun).
    now inversion Hrun.
Qed.
End Steady.

(** [minus_nw_main_outcomes] at a failed allocation. *)
Lemma minus_nw_main_outcomes_witness :
  match MinusNw.main 3 (Double.boot_world 1 (fun len => len) 0) with
  | Done code w' =>
      code = EXIT_SUCCESS /\
      fst (fst (dev_getMem (16 * 1024)
                  (dev (Double.boot_world 1 (fun len => len) 0)))) <> 0
  | Spin w' =>
      fst (fst (dev_getMem (16 * 1024)
                  (dev (Double.boot_world 1 (fun len => len) 0)))) <> 0
  | Throw msg w' =>
      msg = "Could not allocate memory; exiting..."%string /\
      fst (fst (dev_getMem (16 * 1024)
                  (dev (Double.boot_world 1 (fun len => len) 0)))) = 0 /\
      log w' = log (Double.boot_world 1 (fun len => len) 0)
                 ++ [EvGetMem (16 * 1024) 0]
  | Undefined w' => False
  end.
Proof.
  apply (minus_nw_main_outcomes 3 (Double.boot_world 1 (fun len => len) 0)).
  vm_compute. discriminate.
Defined.

(** ** The wait for the engine, at length *)

Lemma land_wrap64_1 (v : Z) : Z.land (wrap64 v) 1 = Z.land v 1.
Proof. unfold wrap64. now rewrite <- Z.land_assoc. Qed.

Lemma length_progress (waits : list Z) (count : Z) :
  0 <= count ->
  Z.of_nat (length (progress count waits))
  = (count + Z.of_nat (length waits) + 999) / 1000 - (count + 999) / 1000.
Proof.
  revert count; induction waits as [|v r IH]; intros count Hc.
  - cbn [progress length]. replace (count + Z.of_nat 0 + 999) with (count + 999) by lia.
    lia.
  - cbn [progress]. rewrite length_app, Nat2Z.inj_add, IH by lia.
    rewrite Z.rem_mod_nonneg by lia.
    cbn [length]. rewrite Nat2Z.inj_succ.
    replace (count + 1 + Z.of_nat (length r) + 999)
      with (count + Z.succ (Z.of_nat (length r)) + 999) by lia.
    clear IH.
    generalize ((count + Z.succ (Z.of_nat (length r)) + 999) / 1000). intros q.
    destruct (Z.eqb_spec (count mod 1000) 0) as [Hz|Hnz]; cbn [length];
      Z.div_mod_to_equations; lia.
Qed.

Section Wait.
Context {D : Type} `{Device D}.

(** X6.  A wait for the engine that returns has read the status
    register through the mailbox [k] times with bit 0 clear and then
    once with bit 0 set, and has printed one progress line for every
    thousandth reading that made it wait, the first for the first:
    after [k] such readings, the integer ceiling of [k / 1000] lines,
    and nothing else. *)
Theorem wait_progress_lines (fuel inner : nat) (w w' : world D) (st : Z) :
  MinusNw.poll_dma fuel inner 0 w = Done st w' ->
  exists evs waits vdone,
    log w' = log w ++ evs /\
    (forall f, ops f evs
               = map (Rd MinusNw.DMA_STATUS_REG) waits
                 ++ [Rd MinusNw.DMA_STATUS_REG vdone]) /\
    Forall (fun v => Z.testbit v 0 = false) waits /\
    Z.testbit vdone 0 = true /\
    printed evs = progress 0 waits /\
    Z.of_nat (length (printed evs)) = (Z.of_nat (length waits) + 999) / 1000.
Proof.
  intros Hrun.
  apply spec_poll_dma in Hrun as (evs & Hlog & waits & vdone & [Hf Hp] & Hw & Hd).
  exists evs, waits, vdone. split; [exact Hlog|]. split; [apply Hf|].
  split.
  { eapply Forall_impl; [exact Hw|]. intros v Hv. cbv beta in Hv.
    rewrite <- land_1_testbit. now apply Z.eqb_neq. }
  split; [rewrite <- land_1_testbit; now apply Z.eqb_eq|].
  split; [exact Hp|]. rewrite Hp, length_progress by lia.
  replace (0 + Z.of_nat (length waits) + 999)
    with (Z.of_nat (length waits) + 999) by lia.
  change ((0 + 999) / 1000) with 0. lia.
Qed.
End Wait.

(** [wait_progress_lines] at a card whose engine needs 1001
    microseconds: the wait reads the status register 1001 times before
    it shows bit 0, sleeping 1000 ns after each, and prints the two
    progress lines of counts 0 and 1000. *)
Lemma wait_progress_lines_witness :
  exists evs waits vdone,
    log (final (MinusNw.poll_dma 1002 1 0
                  (Double.slow_world {[MinusNw.DMA_CMD_REG := 1]} 1001000 1)))
    = log (Double.slow_world {[MinusNw.DMA_CMD_REG := 1]} 1001000 1) ++ evs /\
    (forall f, ops f evs
               = map (Rd MinusNw.DMA_STATUS_REG) waits
                 ++ [Rd MinusNw.DMA_STATUS_REG vdone]) /\
    Forall (fun v => Z.testbit v 0 = false) waits /\
    Z.testbit vdone 0 = true /\
    printed evs = progress 0 waits /\
    Z.of_nat (length (printed evs)) = (Z.of_nat (length waits) + 999) / 1000.
Proof.
  apply (wait_progress_lines 1002 1
           (Double.slow_world {[MinusNw.DMA_CMD_REG := 1]} 1001000 1)
           (final (MinusNw.poll_dma 1002 1 0
                     (Double.slow_world {[MinusNw.DMA_CMD_REG := 1]} 1001000 1)))
           1).
  apply returned_done. vm_compute. reflexivity.
Defined.

(** One poll of the wait against a card whose status register does not
    show bit 0. *)
Lemma silent_step (inner n : nat) (count : Z) (c : Double.card) (m : region)
    (lg : list event) :
  (Double.latency c < inner)%nat ->
  (41 <= length m)%nat ->
  Z.land (default 0 (Double.regs c !! MinusNw.DMA_STATUS_REG)) 1 <> 1 ->
  exists c1 m1 lg2,
    Double.latency c1 = Double.latency c /\
    Double.regs c1 = Double.regs c /\
    length m1 = length m /\
    MinusNw.poll_dma (S n) inner count (World c m lg)
    = (if count <? MinusNw.INT_MAX
       then MinusNw.poll_dma n inner (count + 1)
              (World c1 m1 (lg2 ++ [EvSleep 1000]))
       else Undefined (World c1 m1 lg2)).
Proof.
  intros Hlat Hlen Hbit.
  destruct (card_read_mmio c m lg inner MinusNw.DMA_STATUS_REG Hlat Hlen)
    as (lg1 & Hr).
  change (wrap64 MinusNw.DMA_STATUS_REG) with MinusNw.DMA_STATUS_REG in Hr.
  cbn [MinusNw.poll_dma]. unfold bind at 1. rewrite Hr.
  rewrite land_wrap64_1.
  destruct (Z.eqb_spec
              (Z.land (default 0 (Double.regs c !! MinusNw.DMA_STATUS_REG)) 1) 1)
    as [|_]; [contradiction|]. cbn [negb].
  unfold bind at 1.
  destruct (Z.rem count 1000 =? 0); cbn [print emit ret dev mem log];
    unfold bind at 1;
    (destruct (count <? MinusNw.INT_MAX);
     [ unfold ret at 1; unfold bind at 1; unfold sleep_for at 1;
       cbn [dev mem log dev_elapse Double.card_device]
     | unfold undefined at 1 ]);
    (eexists; eexists; eexists; split; [|split; [|split; [|reflexivity]]];
     [reflexivity | reflexivity | now rewrite !length_store64, length_store8]).
Qed.

(** The wait against a card whose status register never shows bit 0:
    it polls on while the counter can still be incremented. *)
Lemma silent_wait (inner n : nat) :
  forall (count : Z) (c : Double.card) (m : region) (lg : list event),
    (Double.latency c < inner)%nat ->
    (41 <= length m)%nat ->
    Z.land (default 0 (Double.regs c !! MinusNw.DMA_STATUS_REG)) 1 <> 1 ->
    0 <= count <= MinusNw.INT_MAX ->
    (count + Z.of_nat n <= MinusNw.INT_MAX ->
     exists w', MinusNw.poll_dma n inner count (World c m lg) = Spin w') /\
    (MinusNw.INT_MAX < count + Z.of_nat n ->
     exists w', MinusNw.poll_dma n inner count (World c m lg) = Undefined w').
Proof.
  induction n as [|n IH]; intros count c m lg Hlat Hlen Hbit Hc.
  - split; [intros _; eexists; reflexivity|lia].
  - destruct (silent_step inner n count c m lg Hlat Hlen Hbit)
      as (c1 & m1 & lg2 & Hl1 & Hr1 & Hm1 & Hstep).
    rewrite Hstep.
    destruct (Z.ltb_spec count MinusNw.INT_MAX) as [Hlt|Hge].
    + destruct (IH (count + 1) c1 m1 (lg2 ++ [EvSleep 1000])) as [Hs Hu];
        [lia | lia | now rewrite Hr1 | lia |].
      split; intros Hn; [apply Hs|apply Hu]; lia.
    + split; [lia|]. intros _. eexists. reflexivity.
Qed.

(** X7.  Against a card whose DMA status register never shows bit 0,
    the wait is still polling after any number of polls up to 2^31 - 1
    and reaches undefined behaviour at the next: [polling_count] is an
    [int] and is incremented once too often. *)
Theorem wait_overflows_on_silent_card (c : Double.card) (m : region)
    (lg : list event) (inner : nat) :
  (Double.latency c < inner)%nat ->
  (41 <= length m)%nat ->
  Z.land (default 0 (Double.regs c !! MinusNw.DMA_STATUS_REG)) 1 <> 1 ->
  (forall n : nat, Z.of_nat n <= MinusNw.INT_MAX ->
     exists w', MinusNw.poll_dma n inner 0 (World c m lg) = Spin w') /\
  (exists w',
     MinusNw.poll_dma (Z.to_nat (MinusNw.INT_MAX + 1)) inner 0 (World c m lg)
     = Undefined w').
Proof.
  intros Hlat Hlen Hbit. split.
  - intros n Hn.
    apply (silent_wait inner n 0 c m lg Hlat Hlen Hbit);
      unfold MinusNw.INT_MAX in *; lia.
  - apply (silent_wait inner (Z.to_nat (MinusNw.INT_MAX + 1)) 0 c m lg Hlat Hlen Hbit);
      unfold MinusNw.INT_MAX in *; lia.
Qed.

(** [wait_overflows_on_silent_card] at the empty register bank. *)
Lemma wait_overflows_on_silent_card_witness :
  (forall n : nat, Z.of_nat n <= MinusNw.INT_MAX ->
     exists w', MinusNw.poll_dma n 2 0 (Double.storage_world 1 ∅) = Spin w') /\
  (exists w',
     MinusNw.poll_dma (Z.to_nat (MinusNw.INT_MAX + 1)) 2 0 (Double.storage_world 1 ∅)
     = Undefined w').
Proof.
  apply (wait_overflows_on_silent_card
           (Double.fresh_card 1 Double.storage ∅ 65536)
           (repeat 0 (Z.to_nat (16 * 1024))) [] 2).
  - cbn. lia.
  - rewrite repeat_length. lia.
  - vm_compute. discriminate.
Defined.

(** ** Direct register traffic of the indirect variant *)

Lemma traffic_app (e1 e2 : list event) o1 a1 p1 c1 o2 a2 p2 c2 :
  traffic e1 o1 a1 p1 c1 -> traffic e2 o2 a2 p2 c2 ->
  traffic (e1 ++ e2) (fun f => o1 f ++ o2 (a1 f)) (fun f => a2 (a1 f))
    (p1 ++ p2) (c1 ++ c2).
Proof.
  intros [H1 C1] [H2 C2]. split; [now apply digest_app|].
  now rewrite csr_writes_app, C1, C2.
Qed.

Lemma traffic_eq (evs : list event) o a p c o' a' p' c' :
  traffic evs o a p c ->
  (forall f, o f = o' f) -> (forall f, a f = a' f) -> p = p' -> c = c' ->
  traffic evs o' a' p' c'.
Proof.
  intros [Hd Hc] Ho Ha Hp Hcc. split; [|congruence].
  eapply digest_eq; eauto.
Qed.

Section Traffic.
Context {D : Type} `{Device D}.

Lemma traffic_setCSR (val reg : Z) :
  (reg =? MinusNw.MMIO_CTRL_REG) = false ->
  spec (setCSR val reg)
    (fun _ evs => traffic evs (fun _ => []) (fun f => f) [] [(reg, val)]).
Proof.
  intros Hreg w a w' Hrun. unfold setCSR in Hrun.
  destruct (dev_setCSR val reg (dev w) (mem w)) as [d m].
  inversion Hrun; subst. eexists. split; [reflexivity|].
  split; [|reflexivity]. split; [|reflexivity].
  intros f. cbn. rewrite Hreg, andb_false_r. auto.
Qed.

Lemma traffic_getCSR (reg : Z) :
  spec (getCSR reg)
    (fun _ evs => traffic evs (fun _ => []) (fun f => f) [] []).
Proof.
  intros w a w' Hrun. unfold getCSR in Hrun.
  destruct (dev_getCSR reg (dev w) (mem w)) as [v [d m]].
  inversion Hrun; subst. eexists. split; [reflexivity|].
  split; [|reflexivity]. split; [|reflexivity]. intros f. auto.
Qed.

Lemma traffic_getCtid :
  spec getCtid (fun _ evs => traffic evs (fun _ => []) (fun f => f) [] []).
Proof.
  intros w a w' Hrun. inversion Hrun; subst. exists [].
  rewrite app_nil_r. split; [reflexivity|].
  split; [apply digest_nil|reflexivity].
Qed.

Lemma traffic_print (line : list item) :
  spec (print line : M (world D) unit)
    (fun _ evs => traffic evs (fun _ => []) (fun f => f) [line] []).
Proof.
  intros w a w' Hrun. inversion Hrun; subst. eexists. split; [reflexivity|].
  split; [|reflexivity]. split; [|reflexivity]. intros f. auto.
Qed.

Lemma traffic_sleep_for (ns : Z) :
  spec (sleep_for ns)
    (fun _ evs => traffic evs (fun _ => []) (fun f => f) [] []).
Proof.
  intros w a w' Hrun. unfold sleep_for in Hrun.
  destruct (dev_elapse ns (dev w) (mem w)) as [d m].
  inversion Hrun; subst. eexists. split; [reflexivity|].
  split; [|reflexivity]. split; [|reflexivity]. intros f. auto.
Qed.

Lemma traffic_read_mmio (fuel : nat) (addr : Z) :
  spec (MinusNw.read_mmio fuel addr)
    (fun v evs =>
       traffic evs (fun _ => [Rd addr v])
         (fun f => Fields 0 addr (f_data f)) []
         (handshake_writes (Rd addr v))).
Proof.
  intros w v w' Hrun. pose proof (read_mmio_log fuel addr w) as Hl.
  rewrite Hrun in Hl. destruct Hl as (vs & Hlog & _ & _).
  eexists. split; [exact Hlog|]. split.
  - eapply digest_eq.
    + eapply digest_app; [digest_list|].
      eapply digest_app; [apply digest_polls|digest_list].
    + reflexivity.
    + reflexivity.
    + reflexivity.
  - rewrite !csr_writes_app, csr_writes_polls. reflexivity.
Qed.

Lemma traffic_write_mmio (fuel : nat) (addr data : Z) :
  spec (MinusNw.write_mmio fuel addr data)
    (fun _ evs =>
       traffic evs (fun _ => [Wr addr data]) (fun _ => Fields 1 addr data) []
         (handshake_writes (Wr addr data))).
Proof.
  intros w u w' Hrun. pose proof (write_mmio_log fuel addr data w) as Hl.
  rewrite Hrun in Hl. destruct Hl as (vs & Hlog & _).
  eexists. split; [exact Hlog|]. split.
  - eapply digest_eq.
    + eapply digest_app; [digest_list|].
      eapply digest_app; [apply digest_polls|digest_list].
    + reflexivity.
    + reflexivity.
    + reflexivity.
  - rewrite !csr_writes_app, csr_writes_polls. reflexivity.
Qed.

Lemma traffic_poll_dma (fuel inner : nat) (count : Z) :
  spec (MinusNw.poll_dma fuel inner count)
    (fun _ evs =>
       exists waits vdone,
         traffic evs
           (fun _ => map (Rd MinusNw.DMA_STATUS_REG) waits
                     ++ [Rd MinusNw.DMA_STATUS_REG vdone])
           (fun f => Fields 0 MinusNw.DMA_STATUS_REG (f_data f))
           (progress count waits)
           (flat_map handshake_writes
              (map (Rd MinusNw.DMA_STATUS_REG) waits
               ++ [Rd MinusNw.DMA_STATUS_REG vdone])) /\
         Forall (fun v => Z.land v 1 <> 1) waits /\
         Z.land vdone 1 = 1).
Proof.
  revert count. induction fuel as [|n IH]; intros count w st w' Hrun;
    [discriminate|].
  cbn [MinusNw.poll_dma] in Hrun.
  apply bind_done in Hrun as (r & w1 & Hread & Hrun).
  apply traffic_read_mmio in Hread as (e1 & Hl1 & Hd1).
  destruct (Z.eqb_spec (Z.land r 1) 1) as [Hbit|Hbit]; cbn [negb] in Hrun.
  - inversion Hrun; subst. exists e1. split; [exact Hl1|].
    exists [], r. split; [|split; [constructor|assumption]].
    eapply traffic_eq; [exact Hd1|reflexivity..].
  - apply bind_done in Hrun as (u1 & w2 & Hprint & Hrun).
    apply bind_done in Hrun as (u2 & w3 & Hovf & Hrun).
    apply bind_done in Hrun as (u3 & w4 & Hsleep & Hrun).
    apply IH in Hrun as (e5 & Hl5 & waits & vdone & Hd5 & Hw & Hdone).
    apply traffic_sleep_for in Hsleep as (e4 & Hl4 & Hd4).
    assert (Hl3 : w3 = w2).
    { destruct (count <? MinusNw.INT_MAX); [now inversion Hovf|discriminate]. }
    subst w3.
    assert (Hp : exists e2, log w2 = log w1 ++ e2 /\
              traffic e2 (fun _ => []) (fun f => f)
                (if Z.rem count 1000 =? 0
                 then [[Txt "Polling DMA status... count: "; Dec count;
                        Txt " val: "; Dec (Z.land r 1)]]
                 else []) []).
    { destruct (Z.rem count 1000 =? 0).
      - apply traffic_print in Hprint as (e2 & Hl2 & Hd2). eauto.
      - inversion Hprint; subst. exists []. rewrite app_nil_r.
        split; [reflexivity|]. split; [apply digest_nil|reflexivity]. }
    destruct Hp as (e2 & Hl2 & Hd2).
    exists (e1 ++ e2 ++ e4 ++ e5). split.
    + rewrite Hl5, Hl4, Hl2, Hl1. now rewrite <- !app_assoc.
    + exists (r :: waits), vdone.
      split; [|split; [now constructor|assumption]].
      eapply traffic_eq.
      * exact (traffic_app _ _ _ _ _ _ _ _ _ _ Hd1
                 (traffic_app _ _ _ _ _ _ _ _ _ _ Hd2
                    (traffic_app _ _ _ _ _ _ _ _ _ _ Hd4 Hd5))).
      * reflexivity.
      * reflexivity.
      * reflexivity.
      * reflexivity.
Qed.
End Traffic.

Ltac traffic_step :=
  first [ apply traffic_getCtid
        | apply traffic_setCSR; reflexivity
        | apply traffic_getCSR
        | apply traffic_print
        | apply traffic_read_mmio
        | apply traffic_write_mmio
        | apply traffic_poll_dma ].

Ltac traffic_steps :=
  repeat (eapply spec_bind; [traffic_step | intros]); traffic_step.

Ltac traffic_all := repeat (eapply traffic_app; [eassumption|]); eassumption.

Section DirectTraffic.
Context {D : Type} `{Device D}.

(** X8.  In a run of the indirect variant that returns, the registers
    written directly are the host-control registers alone: the thread
    identifier that [getCtid] returned at the start of the run (as a
    [uint64_t]) goes to the PID register and the address of the buffer
    to the mailbox-address register, once and before any trigger, and
    then each mailbox operation, in order, is a 0 written to its own
    completion register followed by a 1 written to the trigger
    register.  No other direct write occurs. *)
Theorem direct_register_traffic (fuel : nat) (mem_addr : Z) (w w' : world D) :
  MinusNw.benchmark_run fuel mem_addr w = Done tt w' ->
  exists evs r,
    log w' = log w ++ evs /\
    completed r /\
    (forall f, ops f evs = scenario_ops mem_addr r) /\
    csr_writes evs
    = [(MinusNw.COYOTE_PID_REG, wrap64 (dev_getCtid (dev w)));
       (MinusNw.MMIO_VADDR_REG, mem_addr)]
      ++ flat_map handshake_writes (scenario_ops mem_addr r).
Proof.
  intros Hrun. unfold MinusNw.benchmark_run in Hrun. cbv zeta in Hrun.
  rewrite (bind_step getCtid _ w w (dev_getCtid (dev w)) eq_refl) in Hrun.
  revert Hrun. generalize (dev_getCtid (dev w)). intros c.
  revert w w'.
  match goal with
  | |- forall w w', ?m w = _ -> _ =>
      assert (Hspec : spec m
                (fun _ evs =>
                   exists r,
                     completed r /\
                     (forall f, ops f evs = scenario_ops mem_addr r) /\
                     csr_writes evs
                     = [(MinusNw.COYOTE_PID_REG, wrap64 c);
                        (MinusNw.MMIO_VADDR_REG, mem_addr)]
                       ++ flat_map handshake_writes (scenario_ops mem_addr r)))
  end.
  { eapply spec_conseq; [traffic_steps|].
    intros u evs HQ. cbv beta in HQ. split_all. subst.
    match goal with
    | |- context [csr_writes ?E] => eassert (Hall : traffic E _ _ _ _) by traffic_all
    end.
    destruct Hall as [[Hf _] Hc].
    eexists (Readings _ _ _ _ 0 0 _ _ _ _ _ _).
    split; [split; cbn [r_waits r_done]; eassumption|]. split.
    - intros f. destruct (Hf f) as [Ho _]. rewrite Ho.
      unfold scenario_ops. cbn [r_src r_dst r_tx_len r_status r_src_back
        r_len_back r_waits r_done r_status_after r_tx_len_after app].
      rewrite <- ?app_assoc. reflexivity.
    - rewrite Hc. unfold scenario_ops.
      cbn [r_src r_dst r_tx_len r_status r_src_back
        r_len_back r_waits r_done r_status_after r_tx_len_after app].
      cbn [flat_map app handshake_writes status_reg_of].
      rewrite !flat_map_app. cbn [flat_map app handshake_writes status_reg_of].
      rewrite <- ?app_assoc. reflexivity. }
  intros w w' Hrun. apply Hspec in Hrun as (evs & Hlog & r & Hc & Ho & Hw).
  exists evs, r. auto.
Qed.
End DirectTraffic.

(** [direct_register_traffic] at the run on the double, whose thread
    identifier is 7. *)
Lemma direct_register_traffic_witness :
  exists evs r,
    log (final (MinusNw.benchmark_run 3 65536 (Double.engine_world 1 (fun len => len))))
    = log (Double.engine_world 1 (fun len => len)) ++ evs /\
    completed r /\
    (forall f, ops f evs = scenario_ops 65536 r) /\
    csr_writes evs
    = [(MinusNw.COYOTE_PID_REG,
        wrap64 (dev_getCtid (dev (Double.engine_world 1 (fun len => len)))));
       (MinusNw.MMIO_VADDR_REG, 65536)]
      ++ flat_map handshake_writes (scenario_ops 65536 r).
Proof.
  apply (direct_register_traffic 3 65536
           (Double.engine_world 1 (fun len => len))
           (final (MinusNw.benchmark_run 3 65536 (Double.engine_world 1 (fun len => len))))).
  vm_compute. reflexivity.
Defined.

(** ** Several registers behind one mailbox *)

(** X9.  Against a card that is pure storage, two registers written
    through the mailbox one after the other both read back what was
    written to them: the request of the second write does not leak into
    the first register, nor the stale payload into a read. *)
Theorem registers_do_not_interfere (c : Double.card) (m : region)
    (lg : list event) (fuel : nat) (R1 V1 R2 V2 : Z) :
  Double.on_write c = Double.storage ->
  (Double.latency c < fuel)%nat ->
  (49 <= length m)%nat ->
  0 <= R1 < 2 ^ 64 -> 0 <= V1 < 2 ^ 64 ->
  0 <= R2 < 2 ^ 64 -> 0 <= V2 < 2 ^ 64 ->
  R1 <> R2 ->
  exists w1 w2 w3 w4,
    MinusNw.write_mmio fuel R1 V1 (World c m lg) = Done tt w1 /\
    MinusNw.write_mmio fuel R2 V2 w1 = Done tt w2 /\
    MinusNw.read_mmio fuel R1 w2 = Done V1 w3 /\
    MinusNw.read_mmio fuel R2 w3 = Done V2 w4.
Proof.
  intros Hst Hf Hlen HR1 HV1 HR2 HV2 Hne.
  destruct (card_write_mmio c m lg fuel R1 V1 Hf Hlen) as (lg1 & Hw1).
  rewrite Hst, (wrap64_small R1), (wrap64_small V1) in Hw1 by assumption.
  unfold Double.storage in Hw1 at 1.
  match type of Hw1 with
  | _ = Done tt (World ?c1 ?m1 ?l1) =>
      destruct (card_write_mmio c1 m1 l1 fuel R2 V2) as (lg2 & Hw2);
        [exact Hf
        | repeat first [rewrite length_store64 | rewrite length_store8]; lia |]
  end.
  cbn [Double.regs Double.csr Double.on_write Double.latency Double.buffer
       Double.ctid] in Hw2.
  rewrite (wrap64_small R2), (wrap64_small V2) in Hw2 by assumption.
  unfold Double.storage in Hw2 at 2.
  match type of Hw2 with
  | _ = Done tt (World ?c1 ?m1 ?l1) =>
      destruct (card_read_mmio c1 m1 l1 fuel R1) as (lg3 & Hr1);
        [exact Hf
        | repeat first [rewrite length_store64 | rewrite length_store8]; lia |]
  end.
  cbn [Double.regs Double.csr Double.on_write Double.latency Double.buffer
       Double.ctid] in Hr1.
  rewrite (wrap64_small R1) in Hr1 by assumption.
  rewrite lookup_insert_ne, lookup_insert_eq in Hr1 by congruence.
  cbn [default from_option id] in Hr1.
  rewrite (wrap64_small V1) in Hr1 by assumption.
  match type of Hr1 with
  | _ = Done _ (World ?c1 ?m1 ?l1) =>
      destruct (card_read_mmio c1 m1 l1 fuel R2) as (lg4 & Hr2);
        [exact Hf
        | repeat first [rewrite length_store64 | rewrite length_store8]; lia |]
  end.
  cbn [Double.regs Double.csr Double.on_write Double.latency Double.buffer
       Double.ctid] in Hr2.
  rewrite (wrap64_small R2) in Hr2 by assumption.
  rewrite lookup_insert_eq in Hr2.
  cbn [default from_option id] in Hr2.
  rewrite (wrap64_small V2) in Hr2 by assumption.
  eexists. eexists. eexists. eexists.
  split; [exact Hw1|]. split; [exact Hw2|]. split; [exact Hr1|exact Hr2].
Qed.

(** [registers_do_not_interfere] for the source-address and length
    registers. *)
Lemma registers_do_not_interfere_witness :
  exists w1 w2 w3 w4,
    MinusNw.write_mmio 3 8 69632 (Double.storage_world 2 ∅) = Done tt w1 /\
    MinusNw.write_mmio 3 24 1024 w1 = Done tt w2 /\
    MinusNw.read_mmio 3 8 w2 = Done 69632 w3 /\
    MinusNw.read_mmio 3 24 w3 = Done 1024 w4.
Proof.
  apply (registers_do_not_interfere (Double.fresh_card 2 Double.storage ∅ 65536)
           (repeat 0 (Z.to_nat (16 * 1024))) [] 3 8 69632 24 1024).
  - reflexivity.
  - cbn. lia.
  - rewrite repeat_length. lia.
  - lia.
  - lia.
  - lia.
  - lia.
  - discriminate.
Defined.

(** ** The AES example *)

Section Aes.
Context {P : Type} `{AesHost.Process P}.

(** The fill loop, with a usable buffer: the words of the indices are
    written, the rest of memory is left as it was. *)
Lemma fill_spec (t : Z) (f : Z -> Z) (l : list Z) :
  t <> 0 ->
  forall w : AesHost.world P,
  exists h,
    for_each l (fun i => AesHost.store_word t i (f i)) w
    = Done tt (AesHost.World (AesHost.proc w) h (AesHost.calls w)) /\
    (forall i, In i l -> h !! (t + 8 * i) = Some (f i)) /\
    (forall a, (forall i, In i l -> a <> t + 8 * i) ->
               h !! a = AesHost.heap w !! a).
Proof.
  intros Ht. induction l as [|i r IH]; intros w.
  - exists (AesHost.heap w). split; [now destruct w|]. split; [intros i []|auto].
  - cbn [for_each foldr]. unfold bind at 1. unfold AesHost.store_word at 1.
    destruct (Z.eqb_spec t 0) as [|_]; [contradiction|].
    change (foldr (fun a k => bind (AesHost.store_word t a (f a)) (fun _ => k))
              (ret tt) r)
      with (for_each r (fun i => @AesHost.store_word P t i (f i))).
    destruct (IH (AesHost.World (AesHost.proc w)
                    (<[t + 8 * i := f i]> (AesHost.heap w)) (AesHost.calls w)))
      as (h & Hrun & Hin & Hout).
    cbn [AesHost.proc AesHost.heap AesHost.calls] in *.
    exists h. split; [exact Hrun|]. split.
    + intros j [<-|Hj]; [|now apply Hin].
      destruct (in_dec Z.eq_dec i r) as [Hir|Hir]; [now apply Hin|].
      rewrite Hout; [apply lookup_insert_eq|].
      intros k Hk Heq. apply Hir. replace i with k by lia. exact Hk.
    + intros a Ha. rewrite Hout by (intros k Hk; apply Ha; now right).
      apply lookup_insert_ne. intros Heq. apply (Ha i); [now left|congruence].
Qed.

(** The comparison loop reads and leaves memory alone, and reports
    whether every word is the cipher text expected at its index. *)
Lemma check_spec (t : Z) (l : list Z) (w : AesHost.world P) :
  t <> 0 \/ l = [] ->
  AesHost.check t l w
  = Done (forallb
            (fun i => default 0 (AesHost.heap w !! (t + 8 * i))
                      =? (if Z.rem i 2 =? 0 then AesHost.cipherLow
                          else AesHost.cipherHigh)) l) w.
Proof.
  intros Ht. induction l as [|i r IH]; [reflexivity|].
  destruct Ht as [Ht|Ht]; [|discriminate].
  cbn [AesHost.check forallb]. unfold bind at 1. unfold AesHost.load_word at 1.
  destruct (Z.eqb_spec t 0) as [|_]; [contradiction|].
  destruct (Z.rem i 2 =? 0);
    destruct (default 0 (AesHost.heap w !! (t + 8 * i)) =? _);
    cbn [negb andb]; try reflexivity; apply IH; now left.
Qed.

(** X10.  With a usable first buffer, one transfer runs as follows,
    whatever the process handle does: two allocations of the same
    number of pages, the fill of the first [size / 8] words of the
    first buffer with the plain text (low word at even, high word at
    odd indices, the rest of memory untouched), the switch to the
    chosen device, the two halves of the key to registers 0 and 1, and
    the transfer of [size] bytes of the first buffer.  The verdict
    printed is the success line exactly when every one of these words
    then holds the cipher text of its parity; the second buffer is
    never used and the exit code is 0 either way. *)
Theorem aes_transfer_run (size io_dev t r : Z) (p1 p2 : P) (w : AesHost.world P) :
  AesHost.hugePageSize <> 0 ->
  AesHost.proc_getMem
    (size / AesHost.hugePageSize
     + (if size mod AesHost.hugePageSize >? 0 then 1 else 0))
    (AesHost.proc w) = (t, p1) ->
  AesHost.proc_getMem
    (size / AesHost.hugePageSize
     + (if size mod AesHost.hugePageSize >? 0 then 1 else 0))
    p1 = (r, p2) ->
  t <> 0 ->
  exists h_in p' h_out,
    (forall i, 0 <= i < size / 8 ->
       h_in !! (t + 8 * i)
       = Some (if Z.rem i 2 =? 0 then AesHost.plainLow else AesHost.plainHigh)) /\
    (forall a, (forall i, 0 <= i < size / 8 -> a <> t + 8 * i) ->
       h_in !! a = AesHost.heap w !! a) /\
    AesHost.proc_invoke t size
      (AesHost.proc_setCSR AesHost.keyHigh 1
         (AesHost.proc_setCSR AesHost.keyLow 0
            (AesHost.proc_ioSwitch io_dev p2))) h_in = (p', h_out) /\
    AesHost.transfer size io_dev w
    = Done 0
        (AesHost.World p' h_out
           (AesHost.calls w
            ++ [AesHost.CGetMem
                  (size / AesHost.hugePageSize
                   + (if size mod AesHost.hugePageSize >? 0 then 1 else 0)) t;
                AesHost.CGetMem
                  (size / AesHost.hugePageSize
                   + (if size mod AesHost.hugePageSize >? 0 then 1 else 0)) r;
                AesHost.CIoSwitch io_dev;
                AesHost.CSetCSR AesHost.keyLow 0;
                AesHost.CSetCSR AesHost.keyHigh 1;
                AesHost.CInvoke t size;
                AesHost.CPrint
                  [Txt (if forallb
                             (fun i => default 0 (h_out !! (t + 8 * i))
                                       =? (if Z.rem i 2 =? 0 then AesHost.cipherLow
                                           else AesHost.cipherHigh))
                             (seqZ 0 (size / 8))
                        then "Success: cipher text matches test vectors!"
                        else "Error: found cipher text that doesn't match the test vector")]])).
Proof.
  intros Hhps Hg1 Hg2 Ht.
  unfold AesHost.transfer.
  destruct (Z.eqb_spec AesHost.hugePageSize 0) as [|_]; [contradiction|].
  cbv zeta. unfold bind at 1. unfold AesHost.getMem at 1. rewrite Hg1.
  unfold bind at 1. unfold AesHost.getMem at 1.
  cbn [AesHost.proc AesHost.heap AesHost.calls]. rewrite Hg2.
  unfold bind at 1.
  match goal with
  | |- context [for_each ?l ?body ?w1] =>
      destruct (fill_spec t
                  (fun i => if Z.rem i 2 =? 0 then AesHost.plainLow
                            else AesHost.plainHigh) l Ht w1)
        as (h_in & Hfill & Hin & Hout)
  end.
  rewrite Hfill. cbn [AesHost.proc AesHost.heap AesHost.calls] in *.
  unfold bind at 1. unfold AesHost.ioSwitch at 1.
  unfold bind at 1. unfold AesHost.setCSR at 1.
  unfold bind at 1. unfold AesHost.setCSR at 1.
  unfold bind at 1. unfold AesHost.invoke at 1.
  cbn [AesHost.proc AesHost.heap AesHost.calls].
  destruct (AesHost.proc_invoke t size _ h_in) as [p' h_out] eqn:Hinv.
  unfold bind at 1. rewrite check_spec by now left.
  cbn [AesHost.proc AesHost.heap AesHost.calls].
  exists h_in, p', h_out. split.
  { intros i Hi. apply Hin. apply list_elem_of_In, elem_of_seqZ. lia. }
  split.
  { intros a Ha. apply Hout. intros i Hi. apply Ha.
    apply list_elem_of_In, elem_of_seqZ in Hi. lia. }
  split; [exact Hinv|].
  unfold bind, AesHost.print, ret. cbn [AesHost.proc AesHost.heap AesHost.calls].
  rewrite <- !app_assoc. reflexivity.
Qed.
End Aes.

(** [aes_transfer_run] for 16 bytes from buffers at 4096 and 8192. *)
Lemma aes_transfer_run_witness :
  exists h_in p' h_out,
    (forall i, 0 <= i < 16 / 8 ->
       h_in !! (4096 + 8 * i)
       = Some (if Z.rem i 2 =? 0 then AesHost.plainLow else AesHost.plainHigh)) /\
    (forall a, (forall i, 0 <= i < 16 / 8 -> a <> 4096 + 8 * i) ->
       h_in !! a = AesHost.heap (AesHost.World (Double.Process [4096; 8192]) ∅ []) !! a) /\
    AesHost.proc_invoke 4096 16
      (AesHost.proc_setCSR AesHost.keyHigh 1
         (AesHost.proc_setCSR AesHost.keyLow 0
            (AesHost.proc_ioSwitch 0 (Double.Process [])))) h_in = (p', h_out) /\
    AesHost.transfer 16 0 (AesHost.World (Double.Process [4096; 8192]) ∅ [])
    = Done 0
        (AesHost.World p' h_out
           (AesHost.calls (AesHost.World (Double.Process [4096; 8192]) ∅ [])
            ++ [AesHost.CGetMem
                  (16 / AesHost.hugePageSize
                   + (if 16 mod AesHost.hugePageSize >? 0 then 1 else 0)) 4096;
                AesHost.CGetMem
                  (16 / AesHost.hugePageSize
                   + (if 16 mod AesHost.hugePageSize >? 0 then 1 else 0)) 8192;
                AesHost.CIoSwitch 0;
                AesHost.CSetCSR AesHost.keyLow 0;
                AesHost.CSetCSR AesHost.keyHigh 1;
                AesHost.CInvoke 4096 16;
                AesHost.CPrint
                  [Txt (if forallb
                             (fun i => default 0 (h_out !! (4096 + 8 * i))
                                       =? (if Z.rem i 2 =? 0 then AesHost.cipherLow
                                           else AesHost.cipherHigh))
                             (seqZ 0 (16 / 8))
                        then "Success: cipher text matches test vectors!"
                        else "Error: found cipher text that doesn't match the test vector")]])).
Proof.
  apply (aes_transfer_run 16 0 4096 8192 (Double.Process [8192]) (Double.Process [])
           (AesHost.World (Double.Process [4096; 8192]) ∅ [])).
  - discriminate.
  - reflexivity.
  - reflexivity.
  - discriminate.
Defined.

Lemma bind_done_any {W A B} (m : M W A) (k : A -> M W B) (w w'' : W) (b : B) :
  bind m k w = Done b w'' ->
  exists a w', m w = Done a w' /\ k a w' = Done b w''.
Proof.
  unfold bind. destruct (m w) as [a w'| | |]; try discriminate.
  intros Hk. eauto.
Qed.

Section AesMain.
Context {P : Type} `{AesHost.Process P}.

Lemma transfer_done (size io_dev code : Z) (w w' : AesHost.world P) :
  AesHost.transfer size io_dev w = Done code w' -> code = 0.
Proof.
  unfold AesHost.transfer.
  destruct (AesHost.hugePageSize =? 0); [discriminate|]. cbv zeta. intros Hrun.
  repeat (apply bind_done_any in Hrun as (? & ? & _ & Hrun)).
  now inversion Hrun.
Qed.

(** X11.  The AES program returns [EXIT_FAILURE] exactly when a
    device was selected on the command line and the selection is
    invalid; it has then printed one line and touched neither memory
    nor the card.  Every other returning run ends with code 0. *)
Theorem aes_exit_code (args : AesHost.cmdline) (w w' : AesHost.world P) (code : Z) :
  AesHost.main args w = Done code w' ->
  (code = EXIT_FAILURE \/ code = 0) /\
  (code = EXIT_FAILURE <->
   exists d, AesHost.arg_iodev args = Some d /\
             AesHost.proc_userInIOSwtch d (AesHost.proc w) = AesHost.ERROR_DEV) /\
  (code = EXIT_FAILURE ->
   w' = AesHost.World (AesHost.proc w) (AesHost.heap w)
          (AesHost.calls w
           ++ [AesHost.CPrint [Txt "User entered an invalid IO configuration"]])).
Proof.
  unfold AesHost.main. destruct (AesHost.arg_iodev args) as [d|].
  - destruct (Z.eqb_spec (AesHost.proc_userInIOSwtch d (AesHost.proc w))
                AesHost.ERROR_DEV) as [Herr|Hok]; intros Hrun.
    + inversion Hrun; subst. split; [now left|]. split; [|reflexivity].
      split; [eauto|reflexivity].
    + apply bind_done_any in Hrun as (u & w1 & _ & Hrun).
      apply transfer_done in Hrun. subst code.
      split; [now right|]. split; [|discriminate].
      split; [discriminate|]. intros (d' & Hd & Herr). congruence.
  - intros Hrun. apply transfer_done in Hrun. subst code.
    split; [now right|]. split; [|discriminate].
    split; [discriminate|]. intros (d' & Hd & _). discriminate.
Qed.

(** X12.  With a size below 8 bytes the program writes and compares
    no word at all, so it reports success whatever the allocations
    returned and whatever the transfer did: the two allocations, the
    device switch, the key, the transfer and the success line. *)
Theorem aes_small_size_reports_success (size : Z) (w : AesHost.world P) :
  AesHost.hugePageSize <> 0 ->
  0 <= size < 8 ->
  exists n t r p' h',
    AesHost.main (AesHost.Cmdline (Some size) None) w
    = Done 0
        (AesHost.World p' h'
           (AesHost.calls w
            ++ [AesHost.CGetMem n t; AesHost.CGetMem n r;
                AesHost.CIoSwitch AesHost.HOST_MEM;
                AesHost.CSetCSR AesHost.keyLow 0;
                AesHost.CSetCSR AesHost.keyHigh 1;
                AesHost.CInvoke t size;
                AesHost.CPrint [Txt "Success: cipher text matches test vectors!"]])).
Proof.
  intros Hhps Hsize. unfold AesHost.main. cbn [AesHost.arg_iodev AesHost.arg_size default
    from_option id].
  unfold AesHost.transfer.
  destruct (Z.eqb_spec AesHost.hugePageSize 0) as [|_]; [contradiction|].
  cbv zeta. rewrite (Z.div_small size 8) by lia. cbn [seqZ].
  unfold bind at 1. unfold AesHost.getMem at 1.
  destruct (AesHost.proc_getMem _ (AesHost.proc w)) as [t p1].
  unfold bind at 1. unfold AesHost.getMem at 1.
  cbn [AesHost.proc AesHost.heap AesHost.calls].
  destruct (AesHost.proc_getMem _ p1) as [r p2].
  change (seqZ 0 0) with (@nil Z). cbn [for_each foldr AesHost.check].
  unfold bind at 1. unfold ret at 1.
  unfold bind at 1. unfold AesHost.ioSwitch at 1.
  unfold bind at 1. unfold AesHost.setCSR at 1.
  unfold bind at 1. unfold AesHost.setCSR at 1.
  unfold bind at 1. unfold AesHost.invoke at 1.
  cbn [AesHost.proc AesHost.heap AesHost.calls].
  destruct (AesHost.proc_invoke t size _ _) as [p' h'].
  unfold bind, ret, AesHost.print. cbn [AesHost.proc AesHost.heap AesHost.calls].
  eexists. exists t, r, p', h'. rewrite <- !app_assoc. reflexivity.
Qed.

End AesMain.

(** [aes_exit_code] at an invalid device selection. *)
Lemma aes_exit_code_witness :
  (1 = EXIT_FAILURE \/ 1 = 0) /\
  (1 = EXIT_FAILURE <->
   exists d, AesHost.arg_iodev (AesHost.Cmdline (Some 16) (Some 7)) = Some d /\
             AesHost.proc_userInIOSwtch d
               (AesHost.proc (AesHost.World (Double.Process [4096; 8192]) ∅ []))
             = AesHost.ERROR_DEV) /\
  (1 = EXIT_FAILURE ->
   final (AesHost.main (AesHost.Cmdline (Some 16) (Some 7))
            (AesHost.World (Double.Process [4096; 8192]) ∅ []))
   = AesHost.World
       (AesHost.proc (AesHost.World (Double.Process [4096; 8192]) ∅ []))
       (AesHost.heap (AesHost.World (Double.Process [4096; 8192]) ∅ []))
       (AesHost.calls (AesHost.World (Double.Process [4096; 8192]) ∅ [])
        ++ [AesHost.CPrint [Txt "User entered an invalid IO configuration"]])).
Proof.
  apply (aes_exit_code (AesHost.Cmdline (Some 16) (Some 7))
           (AesHost.World (Double.Process [4096; 8192]) ∅ [])
           (final (AesHost.main (AesHost.Cmdline (Some 16) (Some 7))
                     (AesHost.World (Double.Process [4096; 8192]) ∅ [])))
           1).
  vm_compute. reflexivity.
Defined.

(** [aes_small_size_reports_success] at 7 bytes and no memory. *)
Lemma aes_small_size_reports_success_witness :
  exists n t r p' h',
    AesHost.main (AesHost.Cmdline (Some 7) None)
      (AesHost.World (Double.Process []) ∅ [])
    = Done 0
        (AesHost.World p' h'
           (AesHost.calls (AesHost.World (Double.Process []) ∅ [])
            ++ [AesHost.CGetMem n t; AesHost.CGetMem n r;
                AesHost.CIoSwitch AesHost.HOST_MEM;
                AesHost.CSetCSR AesHost.keyLow 0;
                AesHost.CSetCSR AesHost.keyHigh 1;
                AesHost.CInvoke t 7;
                AesHost.CPrint [Txt "Success: cipher text matches test vectors!"]])).
Proof.
  apply (aes_small_size_reports_success 7 (AesHost.World (Double.Process []) ∅ [])).
  - discriminate.
  - lia.
Defined.

(** ** The record of calls only grows *)

Section AesGrows.
Context {P : Type} `{AesHost.Process P}.

Lemma grows_bind {A B} (m : M (AesHost.world P) A) (k : A -> M (AesHost.world P) B) :
  grows m -> (forall a, grows (k a)) -> grows (bind m k).
Proof.
  intros Hm Hk w. destruct (Hm w) as (e1 & H1). unfold bind.
  destruct (m w) as [a w1|w1|msg w1|w1]; cbn [final] in *; eauto.
  destruct (Hk a w1) as (e2 & H2). exists (e1 ++ e2).
  now rewrite H2, H1, app_assoc.
Qed.

Lemma grows_quiet {A} (m : M (AesHost.world P) A) :
  (forall w, AesHost.calls (final (m w)) = AesHost.calls w) -> grows m.
Proof. intros Hq w. exists []. now rewrite app_nil_r. Qed.

Lemma grows_store_word (p i v : Z) : grows (AesHost.store_word p i v : M (AesHost.world P) unit).
Proof.
  apply grows_quiet. intros w. unfold AesHost.store_word.
  now destruct (p =? 0).
Qed.

Lemma grows_load_word (p i : Z) : grows (AesHost.load_word p i : M (AesHost.world P) Z).
Proof.
  apply grows_quiet. intros w. unfold AesHost.load_word.
  now destruct (p =? 0).
Qed.

Lemma grows_for_each {A} (l : list A) (body : A -> M (AesHost.world P) unit) :
  (forall a, grows (body a)) -> grows (for_each l body).
Proof.
  intros Hb. induction l as [|a r IH].
  - now apply grows_quiet.
  - apply (grows_bind (body a) (fun _ => for_each r body)); auto.
Qed.

Lemma grows_check (t : Z) (l : list Z) : grows (AesHost.check t l : M (AesHost.world P) bool).
Proof.
  induction l as [|i r IH]; [now apply grows_quiet|].
  cbn [AesHost.check]. apply grows_bind; [apply grows_load_word|].
  intros v. destruct (if Z.rem i 2 =? 0 then _ else _); [now apply grows_quiet|exact IH].
Qed.

Lemma grows_getMem (n : Z) : grows (AesHost.getMem n).
Proof.
  intros w. unfold AesHost.getMem.
  destruct (AesHost.proc_getMem n (AesHost.proc w)). eexists. reflexivity.
Qed.

Lemma grows_invoke (addr len : Z) : grows (AesHost.invoke addr len).
Proof.
  intros w. unfold AesHost.invoke.
  destruct (AesHost.proc_invoke addr len _ _). eexists. reflexivity.
Qed.

Lemma grows_one {A} (m : M (AesHost.world P) A) (c : AesHost.call) :
  (forall w, AesHost.calls (final (m w)) = AesHost.calls w ++ [c]) -> grows m.
Proof. intros Hc w. eauto. Qed.

(** X13.  The program asks, twice, for the least number of huge pages
    that hold [size] bytes: the page count of both allocations, the
    first two calls of a transfer, is the quotient of [size] by the
    page size rounded up. *)
Theorem aes_pages_cover_size (size io_dev : Z) (w : AesHost.world P) :
  0 < AesHost.hugePageSize ->
  0 <= size ->
  exists n t r rest,
    AesHost.calls (final (AesHost.transfer size io_dev w))
    = AesHost.calls w ++ AesHost.CGetMem n t :: AesHost.CGetMem n r :: rest /\
    size <= n * AesHost.hugePageSize < size + AesHost.hugePageSize.
Proof.
  intros Hhps Hsize. unfold AesHost.transfer.
  destruct (Z.eqb_spec AesHost.hugePageSize 0) as [|_]; [lia|]. cbv zeta.
  unfold bind at 1. unfold AesHost.getMem at 1.
  destruct (AesHost.proc_getMem _ (AesHost.proc w)) as [t p1].
  unfold bind at 1. unfold AesHost.getMem at 1.
  cbn [AesHost.proc AesHost.heap AesHost.calls].
  destruct (AesHost.proc_getMem _ p1) as [r p2].
  match goal with
  | |- context [final (?R ?w1)] =>
      assert (Hg : grows R);
      [| destruct (Hg w1) as (rest & Hrest) ]
  end.
  { apply grows_bind; [apply grows_for_each; intros; apply grows_store_word|].
    intros _. apply grows_bind; [eapply grows_one; reflexivity|].
    intros _. apply grows_bind; [eapply grows_one; reflexivity|].
    intros _. apply grows_bind; [eapply grows_one; reflexivity|].
    intros _. apply grows_bind; [apply grows_invoke|].
    intros _. apply grows_bind; [apply grows_check|].
    intros k. apply grows_bind; [eapply grows_one; reflexivity|].
    intros _. now apply grows_quiet. }
  eexists. exists t, r, rest. split.
  - rewrite Hrest. cbn [AesHost.calls]. rewrite <- !app_assoc. reflexivity.
  - assert (Hne : AesHost.hugePageSize <> 0) by lia.
    pose proof (Z.div_mod size AesHost.hugePageSize Hne) as Hdm.
    pose proof (Z.mod_pos_bound size AesHost.hugePageSize Hhps) as Hm.
    destruct (Z.gtb_spec (size mod AesHost.hugePageSize) 0).
    + replace ((size / AesHost.hugePageSize + 1) * AesHost.hugePageSize)
        with (AesHost.hugePageSize * (size / AesHost.hugePageSize)
              + AesHost.hugePageSize) by ring.
      lia.
    + replace ((size / AesHost.hugePageSize + 0) * AesHost.hugePageSize)
        with (AesHost.hugePageSize * (size / AesHost.hugePageSize)) by ring.
      lia.
Qed.
End AesGrows.

(** [aes_pages_cover_size] for 3 MiB on 2 MiB pages. *)
Lemma aes_pages_cover_size_witness :
  exists n t r rest,
    AesHost.calls (final (AesHost.transfer (3 * 1024 * 1024) 0
                            (AesHost.World (Double.Process [4096; 8192]) ∅ [])))
    = AesHost.calls (AesHost.World (Double.Process [4096; 8192]) ∅ [])
      ++ AesHost.CGetMem n t :: AesHost.CGetMem n r :: rest /\
    3 * 1024 * 1024 <= n * AesHost.hugePageSize
    < 3 * 1024 * 1024 + AesHost.hugePageSize.
Proof.
  apply (aes_pages_cover_size (3 * 1024 * 1024) 0
           (AesHost.World (Double.Process [4096; 8192]) ∅ [])).
  - reflexivity.
  - lia.
Defined.

Section AesNull.
Context {P : Type} `{AesHost.Process P}.

(** X14.  With at least 8 bytes to move and a first allocation that
    returns a null pointer, the program writes through the null
    pointer at the first word of the fill: it reaches undefined
    behaviour after the two allocations and before any use of the
    card, whatever the process handle. *)
Theorem aes_null_buffer_is_dereferenced (size io_dev r : Z) (p1 p2 : P)
    (w : AesHost.world P) :
  AesHost.hugePageSize <> 0 ->
  8 <= size ->
  AesHost.proc_getMem
    (size / AesHost.hugePageSize
     + (if size mod AesHost.hugePageSize >? 0 then 1 else 0))
    (AesHost.proc w) = (0, p1) ->
  AesHost.proc_getMem
    (size / AesHost.hugePageSize
     + (if size mod AesHost.hugePageSize >? 0 then 1 else 0))
    p1 = (r, p2) ->
  AesHost.transfer size io_dev w
  = Undefined
      (AesHost.World p2 (AesHost.heap w)
         (AesHost.calls w
          ++ [AesHost.CGetMem
                (size / AesHost.hugePageSize
                 + (if size mod AesHost.hugePageSize >? 0 then 1 else 0)) 0;
              AesHost.CGetMem
                (size / AesHost.hugePageSize
                 + (if size mod AesHost.hugePageSize >? 0 then 1 else 0)) r])).
Proof.
  intros Hhps Hsize Hg1 Hg2. unfold AesHost.transfer.
  destruct (Z.eqb_spec AesHost.hugePageSize 0) as [|_]; [contradiction|].
  cbv zeta. unfold bind at 1. unfold AesHost.getMem at 1. rewrite Hg1.
  unfold bind at 1. unfold AesHost.getMem at 1.
  cbn [AesHost.proc AesHost.heap AesHost.calls]. rewrite Hg2.
  assert (Hq : 0 < size / 8) by (apply Z.div_str_pos; lia).
  rewrite (seqZ_cons 0 (size / 8)) by exact Hq.
  cbn [for_each foldr]. unfold bind at 1. unfold bind at 1.
  unfold AesHost.store_word at 1. cbn [Z.eqb].
  rewrite <- app_assoc. reflexivity.
Qed.
End AesNull.

(** [aes_null_buffer_is_dereferenced] at the default size. *)
Lemma aes_null_buffer_is_dereferenced_witness :
  AesHost.transfer AesHost.defSize 0 (AesHost.World (Double.Process []) ∅ [])
  = Undefined
      (AesHost.World (Double.Process [])
         (AesHost.heap (AesHost.World (Double.Process []) ∅ []))
         (AesHost.calls (AesHost.World (Double.Process []) ∅ [])
          ++ [AesHost.CGetMem
                (AesHost.defSize / AesHost.hugePageSize
                 + (if AesHost.defSize mod AesHost.hugePageSize >? 0 then 1 else 0)) 0;
              AesHost.CGetMem
                (AesHost.defSize / AesHost.hugePageSize
                 + (if AesHost.defSize mod AesHost.hugePageSize >? 0 then 1 else 0)) 0])).
Proof.
  apply (aes_null_buffer_is_dereferenced AesHost.defSize 0 0
           (Double.Process []) (Double.Process [])
           (AesHost.World (Double.Process []) ∅ [])).
  - discriminate.
  - unfold AesHost.defSize. lia.
  - reflexivity.
  - reflexivity.
Defined.

(** ** The baseline, step by step *)

Section BaselineSequence.
Context {D : Type} `{Device D}.

(** X15.  A run of the baseline programs, in this order, the source
    and the destination address registers with the same address of the
    buffer, the length register with 32768 and the PID register with
    the thread identifier, the one [getCtid] returns once those three
    registers are written, then starts the engine with command 3; it
    polls the status register, sleeping 4 ns after every reading other
    than 1, until it reads 1; it then reads and prints the status, the
    command and the transferred-length registers and prints the first
    64 bytes of the buffer as they are then.  A run that has not
    returned is at the polls. *)
Theorem baseline_run_sequence (fuel : nat) (mem_addr : Z) (w : world D) :
  exists w3,
    (setCSR mem_addr Baseline.DMA_SRC_ADDR_REG ;;
     setCSR mem_addr Baseline.DMA_DST_ADDR_REG ;;
     setCSR 32768 Baseline.DMA_LEN_REG) w = Done tt w3 /\
    match Baseline.benchmark_run fuel mem_addr w with
    | Done _ w' =>
        exists vs st cmd tx,
          log w' = log w
            ++ [EvSetCSR mem_addr Baseline.DMA_SRC_ADDR_REG;
                EvSetCSR mem_addr Baseline.DMA_DST_ADDR_REG;
                EvSetCSR 32768 Baseline.DMA_LEN_REG;
                EvSetCSR (wrap64 (dev_getCtid (dev w3))) Baseline.COYOTE_PID_REG;
                EvSetCSR 3 Baseline.DMA_CMD_REG]
            ++ polls Baseline.DMA_STATUS_REG CLOCK_PERIOD_NS vs
            ++ [EvGetCSR Baseline.DMA_STATUS_REG 1;
                EvGetCSR Baseline.DMA_STATUS_REG st;
                EvPrint [Txt "DMA_STATUS_REG: "; Dec st];
                EvGetCSR Baseline.DMA_CMD_REG cmd;
                EvPrint [Txt "DMA_CMD_REG: "; Dec cmd];
                EvGetCSR Baseline.COYOTE_DMA_TX_LEN_REG tx;
                EvPrint [Txt "COYOTE_DMA_TX_LEN_REG: "; Dec tx]]
            ++ dump (mem w') /\
          Forall (fun v => v <> 1) vs
    | Spin w' =>
        exists vs,
          log w' = log w
            ++ [EvSetCSR mem_addr Baseline.DMA_SRC_ADDR_REG;
                EvSetCSR mem_addr Baseline.DMA_DST_ADDR_REG;
                EvSetCSR 32768 Baseline.DMA_LEN_REG;
                EvSetCSR (wrap64 (dev_getCtid (dev w3))) Baseline.COYOTE_PID_REG;
                EvSetCSR 3 Baseline.DMA_CMD_REG]
            ++ polls Baseline.DMA_STATUS_REG CLOCK_PERIOD_NS vs /\
          Forall (fun v => v <> 1) vs /\
          length vs = fuel
    | _ => False
    end.
Proof. exact (baseline_run_trace fuel mem_addr w). Qed.
End BaselineSequence.
